(** * TelegramBotPolling: the long-polling loop of [src/telegramPolling.js]

    The class is embedded as a state machine.  One [State] holds the fields
    of the controller object ([this.options], [this._lastRequest], ...), the
    part of the JavaScript runtime the class leans on (the promise chains
    built by [_polling], the pending timers, the queue of promise reactions)
    and a [trace] of every call the class makes on its collaborators
    ([bot.getUpdates], [bot._request], [bot.processUpdate], [bot.emit],
    [console.error], [setTimeout], [clearTimeout], [cancel]).

    The suspension points of a cycle are the three [bot.getUpdates] calls and
    the [setWebHook] request; everything between two of them runs in one
    turn.  The environment drives the machine with [Event]s: a call of
    [start] or [stop], the settlement of the request a cycle is waiting for,
    or a timer that fires.

    Numbers: [update_id], [offset], [interval] and [timeout] are JavaScript
    numbers holding integers; they are modelled as [Z] (exact below 2^53). *)

From Stdlib Require Import ZArith String Ascii Lia.
From Stdlib Require DecimalString DecimalNat DecimalFacts.
From stdpp Require Import base list.

Local Open Scope string_scope.
Local Open Scope list_scope.

(** ** Data *)

Definition ANOTHER_WEB_HOOK_USED : Z := 409%Z.

(** An update as the loop sees it: its [update_id], the rest is opaque. *)
Record Update := mkUpdate { update_id : Z; content : string }.

(** An error object.  [response] is [err.response.statusCode] when the error
    carries a response; [_processing] is the tag the loop sets and deletes. *)
Record Error := mkError {
  message : string;
  response : option Z;
  _processing : bool }.

(** [this.options.params], and the literal [{offset, limit, timeout}] of the
    recovery fetch. *)
Record Params := mkParams { offset : Z; limit : option Z; timeout : Z }.

(** Settlement of a request made on the bot: [getUpdates] fulfils with the
    batch; the value of a fulfilled [setWebHook] request is ignored. *)
Inductive Reply :=
| Fulfilled (updates : list Update)
| Rejected (err : Error).

(** What the loop reads from [this.bot]: [options.badRejection], the number
    of [polling_error] listeners, and the update processor, which either
    returns ([None]) or throws ([Some err]).  The processor is taken to be
    a function of the update; it does not call back into the controller. *)
Record Bot := mkBot {
  badRejection : bool;
  polling_error_listeners : nat;
  processUpdate : Update -> option Error }.

(** Modelled from the spec: [errors.FatalError] of the absent [./errors]
    module, a fatal-level error wrapping the processing error. *)
Inductive BotError := FatalError (cause : Error).

(** Events emitted on the bot, named as in the source. *)
Inductive Notification :=
| polling_restart (msg : string)
| polling_started (msg : string)
| polling_stopped (msg : string)
| polling_error (err : Error)
| error (err : BotError).

(** The lines written with [console.error]. *)
Inductive ConsoleLine :=
| LPollingError (err : Error)
| LRecoveryFailed
| LDueToError (requestErr : Error)
| LMayReceiveAgain.

(** Calls on the collaborators.  [r] is the cycle making the call;
    [AProcess r u o] is [bot.processUpdate(u)], [o] the value of
    [params.offset] at the moment of the call. *)
Inductive Action :=
| AEmit (n : Notification)
| AConsoleError (l : ConsoleLine)
| AGetUpdates (r : nat) (p : Params)
| ASetWebHook (r : nat)
| AProcess (r : nat) (u : Update) (o : Z)
| ACancel (r : nat) (reason : string)
| ASetTimeout (t : nat) (delay : Z)
| AClearTimeout (handle : option nat).

(** Where the promise chain built by one [_polling] call stands: waiting
    for [getUpdates], for the [setWebHook] request, for the retried
    [getUpdates], for the recovery [getUpdates] of
    [_handleProcessingError], settled (its [finally] has run), or
    cancelled. *)
Inductive Stage :=
| Fetching
| Unsetting
| Refetching
| Recovering (err : Error)
| Settled
| Cancelled.

(** Promise reactions waiting for their turn: the [then] of a restart,
    which calls [_polling], and the [finally] callback of a graceful
    [stop]. *)
Inductive Job := JPolling | JStopped.

(** What a call of [start] or [stop] returns: an already resolved promise,
    the promise of cycle [r], a promise settled by the [finally] callback
    attached to cycle [r], or the promise chained on a restart. *)
Inductive Outcome :=
| OResolved
| OCycle (r : nat)
| OAfterFinally (r : nat)
| ORestarted.

Record State := mkState {
  bot : Bot;
  interval : Z;
  params : Params;
  _lastUpdate : Z;
  _lastRequest : option nat;
  _abort : bool;
  _pollingTimeout : option nat;
  _isPollingActive : bool;
  cycles : list Stage;
  stoppers : list nat;
  timers : list nat;
  next_timer : nat;
  jobs : list Job;
  trace : list Action }.

(** ** Field updates *)

Definition set_offset (o : Z) (s : State) : State :=
  mkState (bot s) (interval s)
          (mkParams o (limit (params s)) (timeout (params s)))
          (_lastUpdate s) (_lastRequest s) (_abort s) (_pollingTimeout s)
          (_isPollingActive s) (cycles s) (stoppers s) (timers s)
          (next_timer s) (jobs s) (trace s).

Definition set_lastUpdate (now : Z) (s : State) : State :=
  mkState (bot s) (interval s) (params s) now (_lastRequest s) (_abort s)
          (_pollingTimeout s) (_isPollingActive s) (cycles s) (stoppers s)
          (timers s) (next_timer s) (jobs s) (trace s).

Definition set_lastRequest (p : option nat) (s : State) : State :=
  mkState (bot s) (interval s) (params s) (_lastUpdate s) p (_abort s)
          (_pollingTimeout s) (_isPollingActive s) (cycles s) (stoppers s)
          (timers s) (next_timer s) (jobs s) (trace s).

Definition set_abort (b : bool) (s : State) : State :=
  mkState (bot s) (interval s) (params s) (_lastUpdate s) (_lastRequest s) b
          (_pollingTimeout s) (_isPollingActive s) (cycles s) (stoppers s)
          (timers s) (next_timer s) (jobs s) (trace s).

Definition set_isPollingActive (b : bool) (s : State) : State :=
  mkState (bot s) (interval s) (params s) (_lastUpdate s) (_lastRequest s)
          (_abort s) (_pollingTimeout s) b (cycles s) (stoppers s)
          (timers s) (next_timer s) (jobs s) (trace s).

Definition set_cycles (c : list Stage) (s : State) : State :=
  mkState (bot s) (interval s) (params s) (_lastUpdate s) (_lastRequest s)
          (_abort s) (_pollingTimeout s) (_isPollingActive s) c (stoppers s)
          (timers s) (next_timer s) (jobs s) (trace s).

Definition set_stoppers (l : list nat) (s : State) : State :=
  mkState (bot s) (interval s) (params s) (_lastUpdate s) (_lastRequest s)
          (_abort s) (_pollingTimeout s) (_isPollingActive s) (cycles s) l
          (timers s) (next_timer s) (jobs s) (trace s).

Definition set_timers (l : list nat) (s : State) : State :=
  mkState (bot s) (interval s) (params s) (_lastUpdate s) (_lastRequest s)
          (_abort s) (_pollingTimeout s) (_isPollingActive s) (cycles s)
          (stoppers s) l (next_timer s) (jobs s) (trace s).

Definition set_jobs (l : list Job) (s : State) : State :=
  mkState (bot s) (interval s) (params s) (_lastUpdate s) (_lastRequest s)
          (_abort s) (_pollingTimeout s) (_isPollingActive s) (cycles s)
          (stoppers s) (timers s) (next_timer s) l (trace s).

(** Append one action to the trace. *)
Definition log (a : Action) (s : State) : State :=
  mkState (bot s) (interval s) (params s) (_lastUpdate s) (_lastRequest s)
          (_abort s) (_pollingTimeout s) (_isPollingActive s) (cycles s)
          (stoppers s) (timers s) (next_timer s) (jobs s) (trace s ++ [a]).

Definition emit (n : Notification) (s : State) : State := log (AEmit n) s.

(** ** The runtime: timers and promise chains *)

(** [this._pollingTimeout = setTimeout(() => this._polling(), delay)]. *)
Definition setTimeout (delay : Z) (s : State) : State :=
  let t := next_timer s in
  let s1 := log (ASetTimeout t delay) s in
  mkState (bot s1) (interval s1) (params s1) (_lastUpdate s1)
          (_lastRequest s1) (_abort s1) (Some t) (_isPollingActive s1)
          (cycles s1) (stoppers s1) (timers s1 ++ [t]) (S t) (jobs s1)
          (trace s1).

Definition remove_id (t : nat) (l : list nat) : list nat :=
  List.filter (fun x => negb (Nat.eqb x t)) l.

(** [clearTimeout(handle)]: nothing happens for [null] or a timer that has
    fired. *)
Definition clearTimeout (handle : option nat) (s : State) : State :=
  let s1 := log (AClearTimeout handle) s in
  match handle with
  | Some t => set_timers (remove_id t (timers s1)) s1
  | None => s1
  end.

Definition in_flight (st : Stage) : bool :=
  match st with
  | Settled | Cancelled => false
  | _ => true
  end.

(** Modelled from the spec: the [cancel] method of the promise held in
    [_lastRequest], which comes from the bot's promise library and is not in
    the source.  Cancelling a chain that is still pending interrupts it so
    that its eventual resolution has no observable effect: none of its
    callbacks runs.  Cancelling a settled chain does nothing. *)
Definition cancel (r : nat) (reason : string) (s : State) : State :=
  let s1 := log (ACancel r reason) s in
  match cycles s1 !! r with
  | Some st =>
      if in_flight st then set_cycles (<[r := Cancelled]> (cycles s1)) s1
      else s1
  | None => s1
  end.

Definition push_job (j : Job) (s : State) : State :=
  set_jobs (jobs s ++ [j]) s.

Definition waiting (r : nat) (l : list nat) : nat :=
  length (List.filter (Nat.eqb r) l).

(** [lastRequest.finally(cb)]: on a settled chain the callback is queued at
    once, otherwise it waits for the chain. *)
Definition on_finally (r : nat) (s : State) : State :=
  match cycles s !! r with
  | Some Settled => push_job JStopped s
  | _ => set_stoppers (stoppers s ++ [r]) s
  end.

(** The chain of cycle [r] settles: the callbacks attached to it are
    queued. *)
Definition settle (r : nat) (s : State) : State :=
  let n := waiting r (stoppers s) in
  let s1 := set_cycles (<[r := Settled]> (cycles s)) s in
  let s2 := set_stoppers (remove_id r (stoppers s1)) s1 in
  set_jobs (jobs s2 ++ repeat JStopped n) s2.

(** ** The class *)

Definition isPolling (s : State) : bool :=
  match _lastRequest s with
  | Some _ => true
  | None => false
  end.

Definition _error (err : Error) (s : State) : State :=
  match polling_error_listeners (bot s) with
  | O => log (AConsoleError (LPollingError err)) s
  | S _ => emit (polling_error err) s
  end.

Definition is_conflict (err : Error) : bool :=
  match response err with
  | Some code => Z.eqb code ANOTHER_WEB_HOOK_USED
  | None => false
  end.

(** [err._processing = true] and [delete err._processing]. *)
Definition tag (err : Error) : Error :=
  mkError (message err) (response err) true.

Definition untag (err : Error) : Error :=
  mkError (message err) (response err) false.

(** [_getUpdates] up to its first suspension: the call of
    [bot.getUpdates(this.options.params)] by cycle [r]. *)
Definition _getUpdates (r : nat) (s : State) : State :=
  log (AGetUpdates r (params s)) s.

Definition _unsetWebHook (r : nat) (s : State) : State :=
  log (ASetWebHook r) s.

Definition set_stage (r : nat) (st : Stage) (s : State) : State :=
  set_cycles (<[r := st]> (cycles s)) s.

(** [_polling]: a new chain is built on a [_getUpdates] call and stored in
    [_lastRequest]. *)
Definition _polling (s : State) : State :=
  let r := length (cycles s) in
  let s1 := _getUpdates r s in
  let s2 := set_cycles (cycles s1 ++ [Fetching]) s1 in
  set_lastRequest (Some r) s2.

(** The [finally] callback of [_polling], after which the chain is
    settled. *)
Definition finally_ (r : nat) (s : State) : State :=
  let s1 := if _abort s then s else setTimeout (interval s) s in
  settle r s1.

(** The [updates.forEach] loop of the [then] callback.  The result is the
    state when the loop ends and the error it threw, if any. *)
Fixpoint forEach (r : nat) (updates : list Update) (s : State)
  : State * option Error :=
  match updates with
  | [] => (s, None)
  | update :: rest =>
      let s1 := set_offset (update_id update + 1)%Z s in
      let s2 := log (AProcess r update (offset (params s1))) s1 in
      match processUpdate (bot s2) update with
      | Some err => (s2, Some (tag err))
      | None => forEach r rest s2
      end
  end.

(** [_handleProcessingError] up to its suspension point. *)
Definition _handleProcessingError (r : nat) (err : Error) (s : State)
  : State :=
  if negb (badRejection (bot s)) then finally_ r (_error err s)
  else
    let opts := mkParams (offset (params s)) (Some 1%Z) 0%Z in
    set_stage r (Recovering err) (log (AGetUpdates r opts) s).

(** The [catch] callback of [_polling]. *)
Definition catch_ (r : nat) (err : Error) (s : State) : State :=
  if negb (_processing err) then finally_ r (_error err s)
  else _handleProcessingError r (untag err) s.

(** The [then] callback of [_polling]. *)
Definition then_ (r : nat) (updates : list Update) (now : Z) (s : State)
  : State :=
  let s1 := set_lastUpdate now s in
  match forEach r updates s1 with
  | (s2, None) => finally_ r s2
  | (s2, Some err) => catch_ r err s2
  end.

(** The recovery fetch of [_handleProcessingError] failed. *)
Definition recovery_failed (err requestErr : Error) (s : State) : State :=
  let s1 := log (AConsoleError LRecoveryFailed) s in
  let s2 := log (AConsoleError (LDueToError requestErr)) s1 in
  let s3 := log (AConsoleError LMayReceiveAgain) s2 in
  emit (error (FatalError err)) s3.

(** The request cycle [r] is waiting for settles with [res] at time
    [now], and the chain runs to its next suspension point or to its end.
    A rejected first fetch goes through the [catch] callback of
    [_getUpdates]: status 409 leads to [_unsetWebHook] and then to one more
    [getUpdates]; any other error, a rejected [setWebHook] request and a
    rejected retry are rethrown to the [catch] callback of [_polling].  A
    settlement addressed to a chain that is settled or cancelled finds
    nothing waiting. *)
Definition on_reply (r : nat) (res : Reply) (now : Z) (s : State) : State :=
  match cycles s !! r with
  | Some Fetching =>
      match res with
      | Fulfilled updates => then_ r updates now s
      | Rejected err =>
          if is_conflict err then set_stage r Unsetting (_unsetWebHook r s)
          else catch_ r err s
      end
  | Some Unsetting =>
      match res with
      | Fulfilled _ => set_stage r Refetching (_getUpdates r s)
      | Rejected err => catch_ r err s
      end
  | Some Refetching =>
      match res with
      | Fulfilled updates => then_ r updates now s
      | Rejected err => catch_ r err s
      end
  | Some (Recovering err) =>
      match res with
      | Fulfilled _ => finally_ r (_error err s)
      | Rejected requestErr => finally_ r (recovery_failed err requestErr s)
      end
  | Some Settled | Some Cancelled | None => s
  end.

(** The timer callback [() => this._polling()]. *)
Definition on_timer (t : nat) (s : State) : State :=
  if existsb (Nat.eqb t) (timers s)
  then _polling (set_timers (remove_id t (timers s)) s)
  else s.

Definition stop_reason (reason : option string) : string :=
  match reason with
  | Some (String c w) => String c w
  | _ => "Polling stop"
  end.

Definition stop (cancel_opt : bool) (reason : option string) (s : State)
  : State * Outcome :=
  match _lastRequest s with
  | None => (s, OResolved)
  | Some lastRequest =>
      let s1 := set_lastRequest None s in
      let s2 := clearTimeout (_pollingTimeout s1) s1 in
      if cancel_opt then
        let s3 := cancel lastRequest (stop_reason reason) s2 in
        let s4 := emit (polling_stopped "Polling stopped") s3 in
        (set_isPollingActive false s4, OResolved)
      else
        let s3 := set_abort true s2 in
        (on_finally lastRequest s3, OAfterFinally lastRequest)
  end.

(** The callback a graceful [stop] attaches with [finally]. *)
Definition stopped (s : State) : State :=
  let s1 := set_abort false s in
  let s2 := set_isPollingActive false s1 in
  emit (polling_stopped "Polling stopped") s2.

Definition start (restart : bool) (s : State) : State * Outcome :=
  if _isPollingActive s then
    if negb restart then (s, OResolved)
    else
      let s1 := emit (polling_restart "Polling restart initiated") s in
      let s2 := fst (stop true (Some "Polling restart") s1) in
      (push_job JPolling s2, ORestarted)
  else
    let s1 := emit (polling_started "Polling started") s in
    let s2 := set_isPollingActive true s1 in
    (_polling s2, OCycle (length (cycles s2))).

(** ** Construction *)

(** [bot.options.polling]: a boolean, or an object whose numeric fields may
    be absent. *)
Record ParamsOption := mkParamsOption {
  opt_offset : option Z;
  opt_limit : option Z;
  opt_timeout : option Z }.

Record PollingObject := mkPollingObject {
  opt_interval : option Z;
  opt_params : option ParamsOption;
  opt_deprecated_timeout : option Z }.

Inductive PollingOption :=
| PollingFlag (b : bool)
| PollingOptions (o : PollingObject).

Definition number_or (d : Z) (v : option Z) : Z :=
  match v with
  | Some n => n
  | None => d
  end.

(** The constructor; the deprecation warning it may print is not
    modelled. *)
Definition constructor (b : Bot) (polling : PollingOption) : State :=
  let options :=
    match polling with
    | PollingFlag _ => mkPollingObject None None None
    | PollingOptions o => o
    end in
  let p :=
    match opt_params options with
    | Some p => p
    | None => mkParamsOption None None None
    end in
  let timeout0 := number_or 10%Z (opt_timeout p) in
  let timeout1 :=
    match opt_deprecated_timeout options with
    | Some t => t
    | None => timeout0
    end in
  mkState b (number_or 300%Z (opt_interval options))
          (mkParams (number_or 0%Z (opt_offset p)) (opt_limit p) timeout1)
          0%Z None false None false [] [] [] O [] [].

(** ** The event loop *)

(** What can happen to a controller: a call of [start] or of [stop], the
    settlement at time [now] of the request cycle [r] is waiting for, and
    the firing of timer [t].  Each is handled in one turn, and the promise
    reactions it queues run before the next one. *)
Inductive Event :=
| EStart (restart : bool)
| EStop (cancel_opt : bool) (reason : option string)
| EReply (r : nat) (res : Reply) (now : Z)
| ETimer (t : nat).

Definition handle (ev : Event) (s : State) : State :=
  match ev with
  | EStart restart => fst (start restart s)
  | EStop c reason => fst (stop c reason s)
  | EReply r res now => on_reply r res now s
  | ETimer t => on_timer t s
  end.

Definition run_job (s : State) (j : Job) : State :=
  match j with
  | JPolling => _polling s
  | JStopped => stopped s
  end.

(** The queued promise reactions run before the next event; none of them
    queues another one. *)
Definition drain (s : State) : State :=
  fold_left run_job (jobs s) (set_jobs [] s).

Definition step (s : State) (ev : Event) : State := drain (handle ev s).

Definition run (s : State) (evs : list Event) : State := fold_left step evs s.

(** The states a controller can be in between two events. *)
Definition reachable (s : State) : Prop :=
  exists b polling evs, s = run (constructor b polling) evs.

(** ** Vocabulary of the statements *)

Definition is_polling_job (j : Job) : bool :=
  match j with
  | JPolling => true
  | JStopped => false
  end.

(** The number of cycle chains that are alive: as a cycle in flight, as a
    pending timer that will call [_polling], or as a queued restart. *)
Definition chains (s : State) : nat :=
  length (List.filter in_flight (cycles s)) + length (timers s)
  + length (List.filter is_polling_job (jobs s)).

(** The largest [update_id] of a batch (of a non-empty one; an empty batch
    has none and gets 0). *)
Definition max_id (us : list Update) : Z :=
  match us with
  | [] => 0%Z
  | u :: rest => fold_left Z.max (map update_id rest) (update_id u)
  end.

(** The identifiers do not decrease along the batch. *)
Fixpoint ascending (us : list Update) : bool :=
  match us with
  | u :: ((v :: _) as rest) =>
      Z.leb (update_id u) (update_id v) && ascending rest
  | _ => true
  end.

(** The processor returns on [u]. *)
Definition succeeds (b : Bot) (u : Update) : bool :=
  match processUpdate b u with
  | None => true
  | Some _ => false
  end.

(** The updates the loop hands to the processor: up to and including the
    first one on which it throws. *)
Fixpoint attempted (b : Bot) (us : list Update) : list Update :=
  match us with
  | [] => []
  | u :: rest => u :: (if succeeds b u then attempted b rest else [])
  end.

(** The error of the first update on which the processor throws. *)
Fixpoint first_failure (b : Bot) (us : list Update) : option Error :=
  match us with
  | [] => None
  | u :: rest =>
      match processUpdate b u with
      | Some err => Some err
      | None => first_failure b rest
      end
  end.

(** The stages in which a cycle waits for a batch. *)
Definition awaits_batch (st : Stage) : bool :=
  match st with
  | Fetching | Refetching => true
  | _ => false
  end.

(** The processor calls of cycle [r] on [us], each finding the cursor
    already past its update. *)
Definition process_actions (r : nat) (us : list Update) : list Action :=
  map (fun u => AProcess r u (update_id u + 1)%Z) us.

(** The state in which the [forEach] loop leaves the controller once it
    has handed the updates [done] to the processor. *)
Definition after_updates (r : nat) (done : list Update) (s : State) : State :=
  mkState (bot s) (interval s)
          (mkParams (match last done with
                     | Some u => (update_id u + 1)%Z
                     | None => offset (params s)
                     end)
                    (limit (params s)) (timeout (params s)))
          (_lastUpdate s) (_lastRequest s) (_abort s) (_pollingTimeout s)
          (_isPollingActive s) (cycles s) (stoppers s) (timers s)
          (next_timer s) (jobs s) (trace s ++ process_actions r done).

Definition is_process_of (r : nat) (a : Action) : bool :=
  match a with
  | AProcess r' _ _ => Nat.eqb r r'
  | _ => false
  end.

(** The processor calls cycle [r] has made so far. *)
Definition processed_by (r : nat) (s : State) : list Action :=
  List.filter (is_process_of r) (trace s).



(** How [_error] reports [err]. *)
Definition report (b : Bot) (err : Error) : Action :=
  match polling_error_listeners b with
  | O => AConsoleError (LPollingError err)
  | S _ => AEmit (polling_error err)
  end.

(** What the [finally] callback of [_polling] adds to the trace. *)
Definition reschedule (s : State) : list Action :=
  if _abort s then [] else [ASetTimeout (next_timer s) (interval s)].

(** The actions between state [s] and a later state [s']. *)
Definition since (s s' : State) : list Action :=
  drop (length (trace s)) (trace s').

Definition is_timeout (a : Action) : bool :=
  match a with
  | ASetTimeout _ _ => true
  | _ => false
  end.

Definition is_stopped (a : Action) : bool :=
  match a with
  | AEmit (polling_stopped _) => true
  | _ => false
  end.

(** How many requests a cycle may still have to wait for. *)
Definition rank (st : Stage) : nat :=
  match st with
  | Fetching => 4
  | Unsetting => 3
  | Refetching => 2
  | Recovering _ => 1
  | Settled | Cancelled => 0
  end.

(** The parameters of the recovery fetch at cursor [o]. *)
Definition recovery_opts (o : Z) : Params := mkParams o (Some 1%Z) 0%Z.

(** The cursor once the updates [done] have been handed over. *)
Definition cursor_after (done : list Update) (s : State) : Z :=
  match last done with
  | Some u => (update_id u + 1)%Z
  | None => offset (params s)
  end.

(** The error as the [catch] callback passes it on. *)
Definition seen (err : Error) : Error := untag (tag err).

(** What a cycle does with a batch after the processor calls. *)
Definition aftermath (r : nat) (us : list Update) (s : State) : list Action :=
  match first_failure (bot s) us with
  | None => reschedule s
  | Some err =>
      if badRejection (bot s)
      then [AGetUpdates r (recovery_opts (cursor_after (attempted (bot s) us) s))]
      else report (bot s) (seen err) :: reschedule s
  end.

(** The calls on the bot are made by cycle [r]. *)
Definition owned (r : nat) (a : Action) : bool :=
  match a with
  | AGetUpdates r' _ | ASetWebHook r' | AProcess r' _ _ => Nat.eqb r r'
  | _ => true
  end.

(** Actions of cycle [r] that neither schedule a cycle nor announce a
    stop. *)
Definition quiet (r : nat) (a : Action) : bool :=
  negb (is_timeout a || is_stopped a) && owned r a.

(** [s0] is [s] after some calls of cycle [r] on the collaborators: only
    the cursor, [_lastUpdate] and the trace may differ, and no timer was
    set. *)
Definition logged (r : nat) (s s0 : State) : Prop :=
  bot s0 = bot s /\ interval s0 = interval s
  /\ _lastRequest s0 = _lastRequest s /\ _abort s0 = _abort s
  /\ _pollingTimeout s0 = _pollingTimeout s
  /\ _isPollingActive s0 = _isPollingActive s
  /\ cycles s0 = cycles s /\ stoppers s0 = stoppers s
  /\ timers s0 = timers s /\ next_timer s0 = next_timer s
  /\ jobs s0 = jobs s
  /\ exists t, trace s0 = trace s ++ t /\ forallb (quiet r) t = true.

(** Some cycle is in flight. *)
Definition cycle_in_flight (s : State) : bool := existsb in_flight (cycles s).

(** What holds of [_lastRequest] in every reachable state: it is the chain
    of the cycle launched last, and no [finally] callback of a graceful
    [stop] waits on it. *)
Definition consistent (s : State) : Prop :=
  (forall x, In x (stoppers s) -> x < length (cycles s))
  /\ (forall r, _lastRequest s = Some r ->
        S r = length (cycles s) /\ ~ In r (stoppers s)).



(** ** The four modes of a controller that is never restarted *)

Definition none_in_flight (s : State) : Prop :=
  forall i st, cycles s !! i = Some st -> in_flight st = false.

Definition only_in_flight (r : nat) (s : State) : Prop :=
  (exists st, cycles s !! r = Some st /\ in_flight st = true)
  /\ forall i st, cycles s !! i = Some st -> in_flight st = true -> i = r.

(** Not polling. *)
Definition idle (s : State) : Prop :=
  jobs s = [] /\ _isPollingActive s = false /\ _lastRequest s = None
  /\ _abort s = false /\ stoppers s = [] /\ timers s = []
  /\ none_in_flight s.

(** Cycle [r] is in flight. *)
Definition cycling (r : nat) (s : State) : Prop :=
  jobs s = [] /\ _isPollingActive s = true /\ _lastRequest s = Some r
  /\ _abort s = false /\ stoppers s = [] /\ timers s = []
  /\ only_in_flight r s.

(** Between two cycles: timer [t] is pending. *)
Definition resting (t : nat) (s : State) : Prop :=
  jobs s = [] /\ _isPollingActive s = true
  /\ (exists r, _lastRequest s = Some r /\ cycles s !! r = Some Settled)
  /\ _abort s = false /\ stoppers s = [] /\ timers s = [t]
  /\ _pollingTimeout s = Some t /\ none_in_flight s.

(** A graceful [stop] waits for cycle [r]. *)
Definition halting (r : nat) (s : State) : Prop :=
  jobs s = [] /\ _isPollingActive s = true /\ _lastRequest s = None
  /\ _abort s = true /\ stoppers s = [r] /\ timers s = []
  /\ only_in_flight r s.

Definition single_chain (s : State) : Prop :=
  idle s \/ (exists r, cycling r s) \/ (exists t, resting t s)
  \/ (exists r, halting r s).

Definition no_restart (ev : Event) : bool :=
  match ev with
  | EStart true => false
  | _ => true
  end.

(** Successive settlements of the requests cycle [r] waits for. *)
Definition replies_to (r : nat) (l : list (Reply * Z)) : list Event :=
  map (fun x => EReply r (fst x) (snd x)) l.


(** ** Vocabulary of the further properties *)

Definition is_process (a : Action) : bool :=
  match a with
  | AProcess _ _ _ => true
  | _ => false
  end.

(** All the processor calls made so far. *)
Definition calls (s : State) : list Action :=
  List.filter is_process (trace s).

(** What the loop is configured with and never assigns: the bot, the
    interval, and the [limit] and [timeout] of [params]. *)
Definition config (s : State) : Bot * Z * option Z * Z :=
  (bot s, interval s, limit (params s), timeout (params s)).

Definition same_limit (a b : option Z) : bool :=
  match a, b with
  | Some x, Some y => Z.eqb x y
  | None, None => true
  | _, _ => false
  end.

(** The actions a controller configured as [s] performs: a fetch carries
    the configured [limit] and [timeout] or is the recovery fetch
    ([limit = 1], [timeout = 0]); a timer waits for [interval]; the
    processor finds the cursor just past its update; an error is emitted
    when there is a [polling_error] listener and written to the console
    when there is none. *)
Definition allowed (s : State) (a : Action) : bool :=
  match a with
  | AGetUpdates _ p =>
      (same_limit (limit p) (limit (params s))
       && Z.eqb (timeout p) (timeout (params s)))
      || (same_limit (limit p) (Some 1%Z) && Z.eqb (timeout p) 0)
  | ASetTimeout _ delay => Z.eqb delay (interval s)
  | AProcess _ u o => Z.eqb o (update_id u + 1)
  | AEmit (polling_error _) =>
      negb (Nat.eqb (polling_error_listeners (bot s)) 0)
  | AConsoleError (LPollingError _) =>
      Nat.eqb (polling_error_listeners (bot s)) 0
  | _ => true
  end.

(** [s'] is [s] after some allowed actions, with the same configuration. *)
Definition grows (s s' : State) : Prop :=
  config s' = config s
  /\ exists t, trace s' = trace s ++ t /\ forallb (allowed s) t = true.

(** The cycle, the batch and the time, when the event hands a batch to a
    cycle that waits for one. *)
Definition batch_settlement (s : State) (ev : Event)
  : option (nat * list Update * Z) :=
  match ev with
  | EReply r (Fulfilled us) now =>
      match cycles s !! r with
      | Some st => if awaits_batch st then Some (r, us, now) else None
      | None => None
      end
  | _ => None
  end.

(** [s'] has the cursor, the [_lastUpdate] and the processor calls of
    [s]. *)
Definition untouched (s s' : State) : Prop :=
  params s' = params s /\ _lastUpdate s' = _lastUpdate s
  /\ calls s' = calls s.

(** The identifiers increase along the batch. *)
Fixpoint increasing (us : list Update) : bool :=
  match us with
  | u :: ((v :: _) as rest) =>
      Z.ltb (update_id u) (update_id v) && increasing rest
  | _ => true
  end.

Definition is_start (ev : Event) : bool :=
  match ev with
  | EStart _ => true
  | _ => false
  end.

(** A never-restarted controller on which [stop] has taken effect: idle,
    or waiting for the cycle in flight to end. *)
Definition stopped_mode (s : State) : Prop :=
  idle s \/ exists r, halting r s.

(** A controller that polls: a cycle is in flight or the timer of the next
    one is pending. *)
Definition polling_mode (s : State) : Prop :=
  (exists r, cycling r s) \/ (exists t, resting t s).

Definition is_stop (ev : Event) : bool :=
  match ev with
  | EStop _ _ => true
  | _ => false
  end.

(** ** The entry point [index.js]

    The file reads [process.versions.node], keeps what precedes its first
    dot, parses it with [parseInt(_, 10)] and exports the legacy build
    [./lib/telegram], after a deprecation warning, when the number is at
    most 5, and [./src/telegram] otherwise.  Strings are sequences of
    characters below 256, which covers the ASCII version strings of Node;
    [parseInt] yields a mathematical integer, or nothing for [NaN]. *)

(** [str.split('.')[0]]. *)
Fixpoint first_segment (str : string) : string :=
  match str with
  | EmptyString => EmptyString
  | String c rest =>
      if Ascii.eqb c "."%char then EmptyString
      else String c (first_segment rest)
  end.

Definition is_digit (c : ascii) : bool :=
  Nat.leb 48 (nat_of_ascii c) && Nat.leb (nat_of_ascii c) 57.

Definition digit_value (c : ascii) : Z := Z.of_nat (nat_of_ascii c - 48).

(** The white space and line terminators [parseInt] skips: tab, line
    feed, vertical tab, form feed, carriage return, space and no-break
    space. *)
Definition is_white_space (c : ascii) : bool :=
  let n := nat_of_ascii c in
  (Nat.leb 9 n && Nat.leb n 13) || Nat.eqb n 32 || Nat.eqb n 160.

Fixpoint trim_start (str : string) : string :=
  match str with
  | String c rest => if is_white_space c then trim_start rest else str
  | EmptyString => EmptyString
  end.

(** The value of the longest prefix of decimal digits, continuing from
    [acc]. *)
Fixpoint parse_digits (acc : Z) (str : string) : Z :=
  match str with
  | String c rest =>
      if is_digit c then parse_digits (10 * acc + digit_value c) rest
      else acc
  | EmptyString => acc
  end.

(** [parseInt(str, 10)]: leading white space is skipped, a sign is read,
    and the digits that follow give the number; without a digit there the
    result is [NaN]. *)
Definition parseInt10 (str : string) : option Z :=
  let trimmed := trim_start str in
  let (sign, digits) :=
    match trimmed with
    | String c rest =>
        if Ascii.eqb c "-"%char then ((-1)%Z, rest)
        else if Ascii.eqb c "+"%char then (1%Z, rest)
        else (1%Z, trimmed)
    | EmptyString => (1%Z, trimmed)
    end in
  match digits with
  | String c _ =>
      if is_digit c then Some (sign * parse_digits 0 digits)%Z else None
  | EmptyString => None
  end.

Definition majorVersion (node_version : string) : option Z :=
  parseInt10 (first_segment node_version).

Inductive Entry := LibTelegram | SrcTelegram.

Definition legacy_warning : string :=
  "Node.js v5.x and below will no longer be supported in the future".

(** What [index.js] exports for a Node version, and the warnings it passes
    to [deprecate].  A comparison with [NaN] is false. *)
Definition index (node_version : string) : Entry * list string :=
  match majorVersion node_version with
  | Some major =>
      if Z.leb major 5 then (LibTelegram, [legacy_warning])
      else (SrcTelegram, [])
  | None => (SrcTelegram, [])
  end.

(** The decimal writing of a natural number. *)
Definition decimal (n : nat) : string :=
  DecimalString.NilEmpty.string_of_uint (Nat.to_uint n).

Definition starts_with_digit (str : string) : bool :=
  match str with
  | String c _ => is_digit c
  | EmptyString => false
  end.

(** A string that does not begin, after white space and a sign, with a
    digit: it is empty, or white space followed by such a string, or a
    sign with no digit behind it, or it begins with a character that is
    neither white space, nor a sign, nor a digit. *)
Inductive numberless : string -> Prop :=
| numberless_empty : numberless EmptyString
| numberless_space (c : ascii) (rest : string) :
    is_white_space c = true -> numberless rest ->
    numberless (String c rest)
| numberless_sign (c : ascii) (rest : string) :
    c = "+"%char \/ c = "-"%char -> starts_with_digit rest = false ->
    numberless (String c rest)
| numberless_other (c : ascii) (rest : string) :
    is_digit c = false -> is_white_space c = false ->
    c <> "+"%char -> c <> "-"%char ->
    numberless (String c rest).

(** ** Sample collaborators *)

Definition boom : Error := mkError "boom" None false.

Definition conflict : Error := mkError "Conflict" (Some 409%Z) false.

Definition timed_out : Error := mkError "ETIMEDOUT" None false.

Definition upd (n : Z) : Update := mkUpdate n "".

(** A bot with a [polling_error] listener whose processor never throws. *)
Definition quiet_bot : Bot := mkBot false 1 (fun _ => None).

(** A bot whose processor throws on update 5; [recover] is its
    [badRejection] option. *)
Definition poisoned_bot (recover : bool) : Bot :=
  mkBot recover 1
        (fun u => if Z.eqb (update_id u) 5 then Some boom else None).

Definition fresh (b : Bot) : State := constructor b (PollingFlag true).

(** ** The event loop: basic facts *)

Lemma drain_quiescent (s : State) : jobs s = [] -> drain s = s.
Proof.
  destruct s as [b i p lu lr ab pt act cy st tm nt jb tr]; simpl.
  intros ->. reflexivity.
Qed.

Lemma run_job_jobs (s : State) (j : Job) : jobs (run_job s j) = jobs s.
Proof. destruct j; reflexivity. Qed.

Lemma run_jobs_jobs (l : list Job) (s : State) :
  jobs (fold_left run_job l s) = jobs s.
Proof.
  revert s; induction l as [|j l IH]; intros s; simpl; [reflexivity|].
  rewrite IH. apply run_job_jobs.
Qed.

Lemma jobs_drain (s : State) : jobs (drain s) = [].
Proof. unfold drain. rewrite run_jobs_jobs. reflexivity. Qed.

Lemma jobs_step (s : State) (ev : Event) : jobs (step s ev) = [].
Proof. apply jobs_drain. Qed.

Lemma run_snoc (s : State) (evs : list Event) (ev : Event) :
  run s (evs ++ [ev]) = step (run s evs) ev.
Proof. unfold run. rewrite fold_left_app. reflexivity. Qed.

Lemma reachable_quiescent (s : State) : reachable s -> jobs s = [].
Proof.
  intros (b & polling & evs & ->).
  destruct evs as [|ev evs _] using rev_ind; [reflexivity|].
  rewrite run_snoc. apply jobs_step.
Qed.

Lemma reachable_step (s : State) (ev : Event) :
  reachable s -> reachable (step s ev).
Proof.
  intros (b & polling & evs & ->).
  exists b, polling, (evs ++ [ev]). symmetry. apply run_snoc.
Qed.

Lemma reachable_run (b : Bot) (polling : PollingOption) (evs : list Event) :
  reachable (run (constructor b polling) evs).
Proof. exists b, polling, evs. reflexivity. Qed.

(** ** The [forEach] loop *)

Lemma forEach_spec (r : nat) (us : list Update) (s : State) :
  forEach r us s
  = (after_updates r (attempted (bot s) us) s,
     option_map tag (first_failure (bot s) us)).
Proof.
  revert s; induction us as [|u us IH]; intros s.
  - destruct s as [b i [o l t] lu lr ab pt act cy st tm nt jb tr].
    unfold after_updates; simpl. rewrite app_nil_r. reflexivity.
  - cbn [forEach attempted first_failure]. unfold succeeds. simpl bot.
    destruct (processUpdate (bot s) u) as [err|] eqn:Hu.
    + reflexivity.
    + rewrite IH. simpl bot. f_equal.
      unfold after_updates; simpl. rewrite last_cons.
      f_equal; [|rewrite <- app_assoc; reflexivity].
      destruct (last (attempted (bot s) us)); reflexivity.
Qed.

Lemma attempted_all (b : Bot) (us : list Update) :
  forallb (succeeds b) us = true ->
  attempted b us = us /\ first_failure b us = None.
Proof.
  induction us as [|u us IH]; simpl; [auto|].
  intros H. apply andb_prop in H as [Hu Hus].
  destruct (IH Hus) as [-> ->]. rewrite Hu. split; [reflexivity|].
  unfold succeeds in Hu. destruct (processUpdate b u); [discriminate|].
  reflexivity.
Qed.

(** The loop stops at the first update on which the processor throws. *)
Lemma attempted_until (b : Bot) (pre post : list Update) (u : Update)
      (err : Error) :
  forallb (succeeds b) pre = true -> processUpdate b u = Some err ->
  attempted b (pre ++ u :: post) = pre ++ [u]
  /\ first_failure b (pre ++ u :: post) = Some err.
Proof.
  intros Hpre Hu. induction pre as [|v pre IH]; simpl.
  - unfold succeeds. rewrite Hu. auto.
  - simpl in Hpre. apply andb_prop in Hpre as [Hv Hpre].
    destruct (IH Hpre) as [-> ->]. rewrite Hv. split; [reflexivity|].
    unfold succeeds in Hv. destruct (processUpdate b v); [discriminate|].
    reflexivity.
Qed.

Lemma max_id_ascending (us : list Update) (u : Update) :
  ascending us = true -> last us = Some u -> max_id us = update_id u.
Proof.
  destruct us as [|v us]; [discriminate|]. unfold max_id.
  revert v; induction us as [|w us IH]; intros v Hasc Hlast.
  - simpl in *. congruence.
  - cbn [ascending] in Hasc. apply andb_prop in Hasc as [Hvw Hasc].
    apply Z.leb_le in Hvw. cbn [map fold_left].
    rewrite Z.max_r by exact Hvw. apply IH; [exact Hasc|].
    rewrite last_cons in Hlast.
    destruct (last (w :: us)) as [y|] eqn:Hy; [exact Hlast|].
    apply last_None in Hy. discriminate.
Qed.

(** ** What the promise reactions and the [finally] callback leave alone *)

Lemma run_jobs_frame (l : list Job) (s : State) :
  params (fold_left run_job l s) = params s
  /\ timers (fold_left run_job l s) = timers s
  /\ bot (fold_left run_job l s) = bot s
  /\ interval (fold_left run_job l s) = interval s
  /\ next_timer (fold_left run_job l s) = next_timer s
  /\ stoppers (fold_left run_job l s) = stoppers s.
Proof.
  revert s; induction l as [|j l IH]; intros s; simpl; [tauto|].
  destruct (IH (run_job s j)) as (-> & -> & -> & -> & -> & ->).
  destruct j; simpl; tauto.
Qed.

Lemma drain_frame (s : State) :
  params (drain s) = params s
  /\ timers (drain s) = timers s
  /\ bot (drain s) = bot s
  /\ interval (drain s) = interval s
  /\ next_timer (drain s) = next_timer s
  /\ stoppers (drain s) = stoppers s.
Proof.
  unfold drain.
  destruct (run_jobs_frame (jobs s) (set_jobs [] s))
    as (-> & -> & -> & -> & -> & ->).
  simpl; tauto.
Qed.

Lemma params_drain (s : State) : params (drain s) = params s.
Proof. apply drain_frame. Qed.

Lemma timers_drain (s : State) : timers (drain s) = timers s.
Proof. apply drain_frame. Qed.

Lemma bot_drain (s : State) : bot (drain s) = bot s.
Proof. apply drain_frame. Qed.

Lemma params_finally (r : nat) (s : State) : params (finally_ r s) = params s.
Proof. unfold finally_. destruct (_abort s); reflexivity. Qed.

Lemma bot_finally (r : nat) (s : State) : bot (finally_ r s) = bot s.
Proof. unfold finally_. destruct (_abort s); reflexivity. Qed.

Lemma trace_finally (r : nat) (s : State) :
  trace (finally_ r s) = trace s ++ reschedule s.
Proof.
  unfold finally_, reschedule. destruct (_abort s); simpl;
    [rewrite app_nil_r|]; reflexivity.
Qed.

Lemma timers_finally (r : nat) (s : State) :
  timers (finally_ r s)
  = if _abort s then timers s else timers s ++ [next_timer s].
Proof. unfold finally_. destruct (_abort s); reflexivity. Qed.

Lemma trace_error (err : Error) (s : State) :
  trace (_error err s) = trace s ++ [report (bot s) err].
Proof.
  unfold _error, report. destruct (polling_error_listeners (bot s));
    reflexivity.
Qed.

Lemma error_frame (err : Error) (s : State) :
  _abort (_error err s) = _abort s
  /\ next_timer (_error err s) = next_timer s
  /\ interval (_error err s) = interval s
  /\ params (_error err s) = params s
  /\ timers (_error err s) = timers s
  /\ cycles (_error err s) = cycles s.
Proof.
  unfold _error. destruct (polling_error_listeners (bot s)); simpl; tauto.
Qed.

Lemma reschedule_error (err : Error) (s : State) :
  reschedule (_error err s) = reschedule s.
Proof.
  unfold reschedule. destruct (error_frame err s) as (-> & -> & -> & _).
  reflexivity.
Qed.

(** The cursor after a batch is the identifier of its last attempted update
    plus one; an empty batch leaves it where it was. *)
Lemma offset_follows_last (s : State) (r : nat) (st : Stage)
      (us : list Update) (now : Z) :
  cycles s !! r = Some st -> awaits_batch st = true ->
  offset (params (step s (EReply r (Fulfilled us) now)))
  = match last (attempted (bot s) us) with
    | Some u => (update_id u + 1)%Z
    | None => offset (params s)
    end.
Proof.
  intros Hr Hst. unfold step, handle, on_reply. rewrite Hr, params_drain.
  assert (offset (params (then_ r us now s))
          = match last (attempted (bot s) us) with
            | Some u => (update_id u + 1)%Z
            | None => offset (params s)
            end) as Hthen.
  { unfold then_. rewrite forEach_spec. simpl bot.
    destruct (first_failure (bot s) us) as [err|]; simpl option_map; cbv iota.
    - unfold catch_, _handleProcessingError. simpl _processing.
      simpl negb. cbv iota. simpl bot.
      destruct (badRejection (bot s)); simpl negb; cbv iota.
      + reflexivity.
      + rewrite params_finally.
        destruct (error_frame (untag (tag err))
                   (after_updates r (attempted (bot s) us)
                      (set_lastUpdate now s))) as (_ & _ & _ & -> & _).
        reflexivity.
    - rewrite params_finally. reflexivity. }
  destruct st; try discriminate; exact Hthen.
Qed.

(** ** One turn of a cycle *)

Lemma trace_then (r : nat) (us : list Update) (now : Z) (s : State) :
  trace (then_ r us now s)
  = trace s ++ process_actions r (attempted (bot s) us) ++ aftermath r us s.
Proof.
  unfold then_, aftermath. rewrite forEach_spec. simpl bot.
  destruct (first_failure (bot s) us) as [err|]; simpl option_map; cbv iota.
  - unfold catch_, _handleProcessingError. simpl _processing. simpl negb.
    cbv iota. simpl bot.
    destruct (badRejection (bot s)); simpl negb; cbv iota.
    + simpl. rewrite <- app_assoc. reflexivity.
    + rewrite trace_finally, reschedule_error, trace_error. simpl.
      rewrite <- !app_assoc. reflexivity.
  - rewrite trace_finally. simpl. rewrite <- app_assoc. reflexivity.
Qed.

Lemma filter_process_actions (r : nat) (us : list Update) :
  List.filter (is_process_of r) (process_actions r us) = process_actions r us.
Proof.
  induction us as [|u us IH]; simpl; [reflexivity|].
  rewrite Nat.eqb_refl, IH. reflexivity.
Qed.

Lemma aftermath_no_process (r r' : nat) (us : list Update) (s : State) :
  List.filter (is_process_of r') (aftermath r us s) = [].
Proof.
  unfold aftermath, reschedule, report.
  destruct (first_failure (bot s) us); [destruct (badRejection (bot s))|];
    destruct (_abort s); try destruct (polling_error_listeners (bot s));
    reflexivity.
Qed.

Lemma since_app (s s' : State) (l : list Action) :
  trace s' = trace s ++ l -> since s s' = l.
Proof. intros H. unfold since. rewrite H. apply drop_app_length. Qed.

Ltac quiet_tac :=
  unfold quiet; simpl; rewrite ?Nat.eqb_refl; reflexivity.

Lemma logged_refl (r : nat) (s : State) : logged r s s.
Proof.
  unfold logged. repeat split; try reflexivity.
  exists []. rewrite app_nil_r. auto.
Qed.

Lemma logged_log (r : nat) (a : Action) (s s0 : State) :
  quiet r a = true -> logged r s s0 -> logged r s (log a s0).
Proof.
  intros Ha (? & ? & ? & ? & ? & ? & ? & ? & ? & ? & ? & t & Ht & Hq).
  unfold logged; simpl. repeat split; try assumption.
  exists (t ++ [a]). rewrite Ht, <- app_assoc. split; [reflexivity|].
  rewrite forallb_app, Hq. simpl. rewrite Ha. reflexivity.
Qed.

Lemma logged_error (r : nat) (err : Error) (s s0 : State) :
  logged r s s0 -> logged r s (_error err s0).
Proof.
  intros H. unfold _error, emit.
  destruct (polling_error_listeners (bot s0)); apply logged_log;
    auto.
Qed.

Lemma logged_process_actions (r : nat) (us : list Update) :
  forallb (quiet r) (process_actions r us) = true.
Proof.
  induction us as [|u us IH]; simpl; [reflexivity|].
  unfold quiet at 1. simpl. rewrite Nat.eqb_refl. exact IH.
Qed.

Lemma logged_after_updates (r : nat) (us : list Update) (s s0 : State) :
  logged r s s0 -> logged r s (after_updates r us s0).
Proof.
  intros (? & ? & ? & ? & ? & ? & ? & ? & ? & ? & ? & t & Ht & Hq).
  unfold logged; simpl. repeat split; try assumption.
  exists (t ++ process_actions r us). rewrite Ht, <- app_assoc.
  split; [reflexivity|].
  rewrite forallb_app, Hq, logged_process_actions. reflexivity.
Qed.

Lemma logged_lastUpdate (r : nat) (now : Z) (s s0 : State) :
  logged r s s0 -> logged r s (set_lastUpdate now s0).
Proof. intros H. exact H. Qed.

Lemma logged_recovery_failed (r : nat) (err requestErr : Error) (s s0 : State) :
  logged r s s0 -> logged r s (recovery_failed err requestErr s0).
Proof.
  intros H. unfold recovery_failed, emit.
  repeat (apply logged_log; [quiet_tac|]). exact H.
Qed.

(** A settlement either ends the cycle, through the [finally] callback, or
    suspends it on another request, closer to its end. *)
Lemma on_reply_cases (s : State) (r : nat) (st : Stage) (res : Reply)
      (now : Z) :
  cycles s !! r = Some st -> in_flight st = true ->
  (exists s0, logged r s s0 /\ on_reply r res now s = finally_ r s0)
  \/ (exists s0 st', logged r s s0 /\ in_flight st' = true
        /\ rank st' < rank st
        /\ on_reply r res now s = set_stage r st' s0).
Proof.
  intros Hr Hst.
  assert (forall err,
            (exists s0, logged r s s0 /\ catch_ r err s = finally_ r s0)
            \/ (exists s0, logged r s s0
                  /\ catch_ r err s = set_stage r (Recovering (untag err)) s0))
    as Hcatch.
  { intros err. unfold catch_, _handleProcessingError.
    destruct (_processing err); simpl negb; cbv iota.
    - destruct (badRejection (bot s)); simpl negb; cbv iota.
      + right. eexists. split; [|reflexivity].
        apply logged_log; [quiet_tac|apply logged_refl].
      + left. eexists. split; [|reflexivity].
        apply logged_error, logged_refl.
    - left. eexists. split; [|reflexivity].
      apply logged_error, logged_refl. }
  assert (forall us,
            (exists s0, logged r s s0 /\ then_ r us now s = finally_ r s0)
            \/ (exists s0 err, logged r s s0
                  /\ then_ r us now s = set_stage r (Recovering err) s0))
    as Hthen.
  { intros us. unfold then_. rewrite forEach_spec. simpl bot.
    set (s1 := after_updates r (attempted (bot s) us) (set_lastUpdate now s)).
    assert (logged r s s1) as Hs1
      by apply logged_after_updates, logged_lastUpdate, logged_refl.
    destruct (first_failure (bot s) us) as [err|]; simpl option_map; cbv iota.
    - unfold catch_, _handleProcessingError. simpl _processing.
      simpl negb. cbv iota.
      change (bot s1) with (bot s).
      destruct (badRejection (bot s)); simpl negb; cbv iota.
      + right. eexists _, _. split; [|reflexivity].
        apply logged_log; [quiet_tac|exact Hs1].
      + left. eexists. split; [|reflexivity].
        apply logged_error, Hs1.
    - left. eexists. split; [|reflexivity]. exact Hs1. }
  unfold on_reply. rewrite Hr.
  assert (forall s0 st', logged r s s0 -> in_flight st' = true ->
            rank st' < rank st -> forall s1, s1 = set_stage r st' s0 ->
            exists s0 st', logged r s s0 /\ in_flight st' = true
              /\ rank st' < rank st /\ s1 = set_stage r st' s0) as Hsusp.
  { intros s0 st' H1 H2 H3 s1 H4. exists s0, st'. auto. }
  destruct st as [| | |e0| |]; try discriminate; destruct res as [us|err].
  - destruct (Hthen us) as [H|(s0 & e & H1 & H2)]; [left; exact H|].
    right. apply (Hsusp s0 (Recovering e)); simpl; auto; lia.
  - destruct (is_conflict err).
    + right. eapply (Hsusp _ Unsetting); simpl; try reflexivity; try lia.
      apply logged_log; [quiet_tac|apply logged_refl].
    + destruct (Hcatch err) as [H|(s0 & H1 & H2)]; [left; exact H|].
      right. apply (Hsusp s0 (Recovering (untag err))); simpl; auto; lia.
  - right. eapply (Hsusp _ Refetching); simpl; try reflexivity; try lia.
    apply logged_log; [quiet_tac|apply logged_refl].
  - destruct (Hcatch err) as [H|(s0 & H1 & H2)]; [left; exact H|].
    right. apply (Hsusp s0 (Recovering (untag err))); simpl; auto; lia.
  - destruct (Hthen us) as [H|(s0 & e & H1 & H2)]; [left; exact H|].
    right. apply (Hsusp s0 (Recovering e)); simpl; auto; lia.
  - destruct (Hcatch err) as [H|(s0 & H1 & H2)]; [left; exact H|].
    right. apply (Hsusp s0 (Recovering (untag err))); simpl; auto; lia.
  - left. eexists. split; [|reflexivity]. apply logged_error, logged_refl.
  - left. eexists. split; [|reflexivity].
    apply logged_recovery_failed, logged_refl.
Qed.

Lemma run_jobs_lookup (l : list Job) (s : State) (r : nat) (st : Stage) :
  cycles s !! r = Some st -> cycles (fold_left run_job l s) !! r = Some st.
Proof.
  revert s; induction l as [|j l IH]; intros s H; simpl; [exact H|].
  apply IH. destruct j; simpl; [|exact H].
  apply lookup_app_l_Some. exact H.
Qed.

Lemma drain_lookup (s : State) (r : nat) (st : Stage) :
  cycles s !! r = Some st -> cycles (drain s) !! r = Some st.
Proof. intros H. unfold drain. apply run_jobs_lookup. exact H. Qed.

(** Where a settlement leaves the stage of the cycle. *)
Lemma on_reply_stage (s : State) (r : nat) (st : Stage) (res : Reply)
      (now : Z) :
  cycles s !! r = Some st -> in_flight st = true ->
  exists st', cycles (on_reply r res now s) !! r = Some st'
    /\ rank st' < rank st /\ st' <> Cancelled.
Proof.
  intros Hr Hst. pose proof (lookup_lt_Some _ _ _ Hr) as Hlt.
  destruct (on_reply_cases s r st res now Hr Hst)
    as [(s0 & Hl & ->)|(s0 & st' & Hl & Hfl & Hrk & ->)];
    destruct Hl as (_ & _ & _ & _ & _ & _ & Hcy & _).
  - exists Settled. unfold finally_, settle.
    destruct (_abort s0); simpl; rewrite Hcy;
      (split; [apply list_lookup_insert_eq; exact Hlt|]);
      (split; [destruct st; simpl in *; try discriminate; lia|discriminate]).
  - exists st'. simpl. rewrite Hcy.
    split; [apply list_lookup_insert_eq; exact Hlt|].
    split; [exact Hrk|]. intros ->. discriminate.
Qed.

Lemma on_reply_idle (s : State) (r : nat) (st : Stage) (res : Reply)
      (now : Z) :
  cycles s !! r = Some st -> in_flight st = false ->
  on_reply r res now s = s.
Proof.
  intros Hr Hst. unfold on_reply. rewrite Hr.
  destruct st; try discriminate; reflexivity.
Qed.

(** A cycle that is not cancelled settles after at most four settlements
    of the requests it waits for. *)
Lemma cycle_settles (r : nat) (replies : list (Reply * Z)) :
  forall (s : State) (st : Stage),
    cycles s !! r = Some st -> st <> Cancelled ->
    rank st <= length replies ->
    cycles (run s (replies_to r replies)) !! r = Some Settled.
Proof.
  induction replies as [|[res now] replies IH]; intros s st Hr Hnc Hrk.
  - simpl in *. destruct st; simpl in Hrk; try lia; congruence.
  - simpl. destruct (in_flight st) eqn:Hfl.
    + destruct (on_reply_stage s r st res now Hr Hfl)
        as (st' & Hr' & Hlt & Hnc').
      apply (IH _ st'); [apply drain_lookup; exact Hr'|exact Hnc'|].
      simpl in Hrk. lia.
    + apply (IH _ st); [|exact Hnc|].
      * apply drain_lookup. unfold handle.
        rewrite (on_reply_idle s r st res now Hr Hfl). exact Hr.
      * destruct st; simpl in *; try discriminate; lia.
Qed.

Lemma rank_le_4 (st : Stage) : rank st <= 4.
Proof. destruct st; simpl; lia. Qed.

(** What the [finally] callback does to the schedule. *)
Lemma finally_schedule (r : nat) (s s0 : State) :
  logged r s s0 ->
  (exists t, trace (finally_ r s0)
             = trace s ++ t
               ++ (if _abort s then []
                   else [ASetTimeout (next_timer s) (interval s)])
             /\ forallb (quiet r) t = true)
  /\ timers (finally_ r s0)
     = (if _abort s then timers s else timers s ++ [next_timer s])
  /\ _pollingTimeout (finally_ r s0)
     = (if _abort s then _pollingTimeout s else Some (next_timer s))
  /\ _abort (finally_ r s0) = _abort s
  /\ _isPollingActive (finally_ r s0) = _isPollingActive s
  /\ _lastRequest (finally_ r s0) = _lastRequest s
  /\ cycles (finally_ r s0) = <[r := Settled]> (cycles s)
  /\ stoppers (finally_ r s0) = remove_id r (stoppers s)
  /\ jobs (finally_ r s0) = jobs s ++ repeat JStopped (waiting r (stoppers s)).
Proof.
  intros (Hb & Hi & Hlr & Hab & Hpt & Hact & Hcy & Hst & Htm & Hnt & Hjb
          & t & Ht & Hq).
  unfold finally_. rewrite Hab. destruct (_abort s); simpl;
    rewrite ?Hab, ?Hact, ?Hlr, ?Hcy, ?Hst, ?Hjb, ?Htm, ?Hnt, ?Hi, ?Hpt, ?Ht;
    (split; [exists t; rewrite <- ?app_assoc, ?app_nil_r; auto|]);
    repeat split; reflexivity.
Qed.

Lemma suspend_schedule (r : nat) (st' : Stage) (s s0 : State) :
  logged r s s0 ->
  (exists t, trace (set_stage r st' s0) = trace s ++ t
             /\ forallb (quiet r) t = true)
  /\ timers (set_stage r st' s0) = timers s
  /\ _pollingTimeout (set_stage r st' s0) = _pollingTimeout s
  /\ _abort (set_stage r st' s0) = _abort s
  /\ _isPollingActive (set_stage r st' s0) = _isPollingActive s
  /\ _lastRequest (set_stage r st' s0) = _lastRequest s
  /\ cycles (set_stage r st' s0) = <[r := st']> (cycles s)
  /\ stoppers (set_stage r st' s0) = stoppers s
  /\ jobs (set_stage r st' s0) = jobs s.
Proof.
  intros (Hb & Hi & Hlr & Hab & Hpt & Hact & Hcy & Hst & Htm & Hnt & Hjb
          & t & Ht & Hq).
  simpl. rewrite Hcy. repeat split; try assumption. exists t. auto.
Qed.

Lemma quiet_no_timeout (r : nat) (t : list Action) :
  forallb (quiet r) t = true -> List.filter is_timeout t = [].
Proof.
  induction t as [|a t IH]; simpl; [reflexivity|].
  intros H. apply andb_prop in H as [Ha Ht]. unfold quiet in Ha.
  destruct (is_timeout a); [discriminate|]. auto.
Qed.


Lemma existsb_last (t : nat) (l : list nat) :
  existsb (Nat.eqb t) (l ++ [t]) = true.
Proof.
  rewrite existsb_app. simpl. rewrite Nat.eqb_refl.
  destruct (existsb (Nat.eqb t) l); reflexivity.
Qed.

(** The three ways the [then] callback can go. *)
Lemma then_success (r : nat) (us : list Update) (now : Z) (s : State) :
  first_failure (bot s) us = None ->
  then_ r us now s
  = finally_ r (after_updates r (attempted (bot s) us) (set_lastUpdate now s)).
Proof.
  intros H. unfold then_. rewrite forEach_spec. simpl bot. rewrite H.
  reflexivity.
Qed.

Lemma then_failure_plain (r : nat) (us : list Update) (now : Z) (s : State)
      (err : Error) :
  first_failure (bot s) us = Some err -> badRejection (bot s) = false ->
  then_ r us now s
  = finally_ r (_error (seen err)
                  (after_updates r (attempted (bot s) us)
                     (set_lastUpdate now s))).
Proof.
  intros H Hb. unfold then_. rewrite forEach_spec. simpl bot. rewrite H.
  simpl option_map. cbv iota. unfold catch_, _handleProcessingError.
  simpl _processing. simpl negb. cbv iota. simpl bot. rewrite Hb.
  reflexivity.
Qed.


Lemma on_reply_batch (r : nat) (st : Stage) (us : list Update) (now : Z)
      (s : State) :
  cycles s !! r = Some st -> awaits_batch st = true ->
  on_reply r (Fulfilled us) now s = then_ r us now s.
Proof.
  intros Hr Hst. unfold on_reply. rewrite Hr.
  destruct st; try discriminate; reflexivity.
Qed.

(** A timer that is pending when the loop is at rest starts a cycle. *)
Lemma timer_starts_cycle (s : State) (t : nat) :
  jobs s = [] -> existsb (Nat.eqb t) (timers s) = true ->
  step s (ETimer t) = _polling (set_timers (remove_id t (timers s)) s).
Proof.
  intros Hj Ht. unfold step, handle, on_timer. rewrite Ht.
  apply drain_quiescent. exact Hj.
Qed.

(** ** Offset bookkeeping *)

(** C1, as amended: when a fetch returns a batch and the processor succeeds
    on every update of it, the cursor [params.offset] ends at the
    [update_id] of the last update of the batch plus one, and an empty batch
    leaves it unchanged; for a non-empty batch whose identifiers ascend in
    array order this is [max(update_id) + 1] over the batch. *)
Theorem offset_after_batch (s : State) (r : nat) (st : Stage)
        (us : list Update) (now : Z) :
  cycles s !! r = Some st -> awaits_batch st = true ->
  forallb (succeeds (bot s)) us = true ->
  offset (params (step s (EReply r (Fulfilled us) now)))
  = match last us with
    | Some u => (update_id u + 1)%Z
    | None => offset (params s)
    end
  /\ (us <> [] -> ascending us = true ->
      offset (params (step s (EReply r (Fulfilled us) now)))
      = (max_id us + 1)%Z).
Proof.
  intros Hr Hst Hok.
  rewrite (offset_follows_last s r st us now Hr Hst).
  destruct (attempted_all _ _ Hok) as [-> _].
  split; [reflexivity|]. intros Hne Hasc.
  destruct (last us) as [u|] eqn:Hlast.
  - rewrite (max_id_ascending us u Hasc Hlast). reflexivity.
  - apply last_None in Hlast. contradiction.
Qed.

Lemma offset_after_batch_witness :
  let s := step (fresh quiet_bot) (EStart false) in
  let us := [upd 5; upd 6] in
  cycles s !! 0 = Some Fetching /\ awaits_batch Fetching = true
  /\ forallb (succeeds (bot s)) us = true
  /\ us <> [] /\ ascending us = true
  /\ offset (params (step s (EReply 0 (Fulfilled us) 1000%Z))) = 7%Z.
Proof.
  pose proof (offset_after_batch (step (fresh quiet_bot) (EStart false)) 0
                Fetching [upd 5; upd 6] 1000%Z eq_refl eq_refl eq_refl)
    as [_ H].
  cbv zeta. do 3 (split; [reflexivity|]). split; [discriminate|].
  split; [reflexivity|]. exact (H ltac:(discriminate) eq_refl).
Defined.

(** C1 as stated fails on a batch whose identifiers do not ascend: the
    cursor follows the last update, not the largest identifier. *)
Lemma offset_is_not_max_plus_one :
  let s := step (fresh quiet_bot) (EStart false) in
  let us := [upd 6; upd 5] in
  cycles s !! 0 = Some Fetching
  /\ forallb (succeeds (bot s)) us = true
  /\ offset (params (step s (EReply 0 (Fulfilled us) 1000%Z))) = 6%Z
  /\ offset (params (step s (EReply 0 (Fulfilled us) 1000%Z)))
     <> (max_id us + 1)%Z.
Proof. vm_compute. repeat split; discriminate. Qed.

Lemma last_attempt (pre : list Update) (u : Update) (s : State) :
  cursor_after (pre ++ [u]) s = (update_id u + 1)%Z.
Proof. unfold cursor_after. rewrite last_snoc. reflexivity. Qed.

(** C9: the loop takes the updates of a batch in array order and sets the
    cursor to [update_id + 1] before it calls the processor on an update
    (every [AProcess] records the cursor the call finds).  When the
    processor throws on [u], after succeeding on the updates [pre] before
    it, the error is tagged [_processing], the cursor stands at
    [update_id u + 1], and none of the updates [post] after [u] is handed
    to the processor.  With recovery disabled the cursor is still there
    after the cycle, and the next fetch is made with it. *)
Theorem offset_set_before_processor (s : State) (r : nat) (st : Stage)
        (pre post : list Update) (u : Update) (err : Error) (now : Z) :
  cycles s !! r = Some st -> awaits_batch st = true ->
  forallb (succeeds (bot s)) pre = true ->
  processUpdate (bot s) u = Some err ->
  let batch := pre ++ u :: post in
  let s0 := set_lastUpdate now s in
  let s1 := step s (EReply r (Fulfilled batch) now) in
  forEach r batch s0 = (after_updates r (pre ++ [u]) s0, Some (tag err))
  /\ _processing (tag err) = true
  /\ trace (after_updates r (pre ++ [u]) s0)
     = trace s ++ map (fun v => AProcess r v (update_id v + 1)%Z) (pre ++ [u])
  /\ offset (params (after_updates r (pre ++ [u]) s0)) = (update_id u + 1)%Z
  /\ processed_by r (on_reply r (Fulfilled batch) now s)
     = processed_by r s ++ process_actions r (pre ++ [u])
  /\ (badRejection (bot s) = false ->
      offset (params s1) = (update_id u + 1)%Z
      /\ (_abort s = false ->
          since s1 (step s1 (ETimer (next_timer s)))
          = [AGetUpdates (length (cycles s1))
               (mkParams (update_id u + 1)%Z (limit (params s))
                         (timeout (params s)))])).
Proof.
  intros Hr Hst Hpre Hu batch s0 s1.
  destruct (attempted_until (bot s) pre post u err Hpre Hu) as [Hatt Hff].
  split; [|split; [|split; [|split; [|split]]]].
  - unfold batch, s0. rewrite forEach_spec. simpl bot.
    rewrite Hatt, Hff. reflexivity.
  - reflexivity.
  - reflexivity.
  - simpl. rewrite last_snoc. reflexivity.
  - rewrite (on_reply_batch r st batch now s Hr Hst).
    unfold processed_by. rewrite trace_then. unfold batch.
    rewrite Hatt, !List.filter_app, filter_process_actions, aftermath_no_process.
    rewrite app_nil_r. reflexivity.
  - intros Hb.
    assert (params s1 = mkParams (update_id u + 1)%Z (limit (params s))
                                 (timeout (params s))) as Hp.
    { unfold s1, step, handle. rewrite params_drain.
      rewrite (on_reply_batch r st batch now s Hr Hst).
      rewrite (then_failure_plain r batch now s err Hff Hb).
      rewrite params_finally.
      destruct (error_frame (seen err)
                  (after_updates r (attempted (bot s) batch)
                     (set_lastUpdate now s))) as (_ & _ & _ & -> & _).
      unfold batch. rewrite Hatt. simpl. rewrite last_snoc. reflexivity. }
    split; [rewrite Hp; reflexivity|]. intros Hab.
    assert (timers s1 = timers s ++ [next_timer s]) as Ht.
    { unfold s1, step, handle. rewrite timers_drain.
      rewrite (on_reply_batch r st batch now s Hr Hst).
      rewrite (then_failure_plain r batch now s err Hff Hb).
      destruct (finally_schedule r s
                  (_error (seen err)
                     (after_updates r (attempted (bot s) batch)
                        (set_lastUpdate now s)))) as (_ & -> & _).
      - apply logged_error, logged_after_updates, logged_lastUpdate,
          logged_refl.
      - rewrite Hab. reflexivity. }
    rewrite (timer_starts_cycle s1 (next_timer s)).
    + apply since_app. simpl. rewrite Hp. reflexivity.
    + apply jobs_step.
    + rewrite Ht. apply existsb_last.
Qed.

Lemma offset_set_before_processor_witness :
  let s := step (fresh (poisoned_bot false)) (EStart false) in
  let s1 := step s (EReply 0 (Fulfilled [upd 5]) 1000%Z) in
  cycles s !! 0 = Some Fetching /\ awaits_batch Fetching = true
  /\ forallb (succeeds (bot s)) [] = true
  /\ processUpdate (bot s) (upd 5) = Some boom
  /\ badRejection (bot s) = false /\ _abort s = false
  /\ processed_by 0 (on_reply 0 (Fulfilled [upd 5]) 1000%Z s)
     = [AProcess 0 (upd 5) 6%Z]
  /\ offset (params s1) = 6%Z
  /\ since s1 (step s1 (ETimer 0)) = [AGetUpdates 1 (mkParams 6%Z None 10%Z)].
Proof.
  pose proof (offset_set_before_processor
                (step (fresh (poisoned_bot false)) (EStart false)) 0
                Fetching [] [] (upd 5) boom 1000%Z
                ltac:(vm_compute; reflexivity) ltac:(vm_compute; reflexivity)
                ltac:(vm_compute; reflexivity) ltac:(vm_compute; reflexivity))
    as H.
  vm_compute in H. destruct H as (_ & _ & _ & _ & Hp & H).
  destruct (H eq_refl) as [H1 H2].
  vm_compute. do 6 (split; [reflexivity|]).
  split; [exact Hp|]. split; [exact H1|]. exact (H2 eq_refl).
Defined.

(** ** Error classification and recovery *)





Lemma settled_here (r : nat) (st : Stage) (s : State) :
  cycles s !! r = Some st -> <[r := Settled]> (cycles s) !! r = Some Settled.
Proof.
  intros Hr. apply list_lookup_insert_eq.
  exact (lookup_lt_Some _ _ _ Hr).
Qed.



Lemma catch_plain (r : nat) (err : Error) (s : State) :
  _processing err = false -> catch_ r err s = finally_ r (_error err s).
Proof. intros H. unfold catch_. rewrite H. reflexivity. Qed.

Lemma since_catch_plain (r : nat) (err : Error) (s : State) :
  _processing err = false ->
  since s (catch_ r err s) = report (bot s) err :: reschedule s.
Proof.
  intros H. apply since_app. rewrite (catch_plain r err s H).
  rewrite trace_finally, reschedule_error, trace_error, <- app_assoc.
  reflexivity.
Qed.

(** C6: a cycle whose fetch is rejected with status 409 calls
    [_unsetWebHook] once and, when that request is fulfilled, calls
    [getUpdates] once more with the same [params]; nothing is reported in
    between.  The retried fetch is the last one: fulfilled, its batch goes
    to the [then] callback as any batch does; rejected (even with 409
    again), its error goes to the [catch] callback and is reported.  A
    first fetch rejected with any other error is reported at once, with
    no [_unsetWebHook] call and no retry. *)
Theorem webhook_conflict_takeover (s : State) (err1 err2 other : Error)
        (any us : list Update) (now1 now2 now3 : Z) :
  is_conflict err1 = true ->
  _processing err2 = false ->
  is_conflict other = false -> _processing other = false ->
  let r := length (cycles s) in
  let s1 := _polling s in
  let s2 := on_reply r (Rejected err1) now1 s1 in
  let s3 := on_reply r (Fulfilled any) now2 s2 in
  since s s3
  = [AGetUpdates r (params s); ASetWebHook r; AGetUpdates r (params s)]
  /\ cycles s3 !! r = Some Refetching
  /\ on_reply r (Fulfilled us) now3 s3 = then_ r us now3 s3
  /\ since s3 (on_reply r (Rejected err2) now3 s3)
     = report (bot s) err2 :: reschedule s
  /\ since s2 (on_reply r (Rejected err2) now2 s2)
     = report (bot s) err2 :: reschedule s
  /\ since s1 (on_reply r (Rejected other) now1 s1)
     = report (bot s) other :: reschedule s.
Proof.
  intros Hc He2 Hnc Hother r s1 s2 s3.
  assert (cycles s1 !! r = Some Fetching) as Hr1.
  { unfold s1, _polling, r. simpl. apply list_lookup_middle. reflexivity. }
  assert (r < length (cycles s1)) as Hlt by exact (lookup_lt_Some _ _ _ Hr1).
  assert (s2 = set_stage r Unsetting (_unsetWebHook r s1)) as Hs2.
  { unfold s2, on_reply. rewrite Hr1, Hc. reflexivity. }
  assert (cycles s2 !! r = Some Unsetting) as Hr2.
  { rewrite Hs2. simpl cycles. apply list_lookup_insert_eq. exact Hlt. }
  assert (s3 = set_stage r Refetching (_getUpdates r s2)) as Hs3.
  { unfold s3, on_reply. rewrite Hr2. reflexivity. }
  assert (cycles s3 !! r = Some Refetching) as Hr3.
  { rewrite Hs3. simpl cycles. apply list_lookup_insert_eq.
    rewrite Hs2. simpl cycles. rewrite length_insert. exact Hlt. }
  assert (forall s', bot s' = bot s -> reschedule s' = reschedule s ->
            forall err, _processing err = false ->
            since s' (catch_ r err s') = report (bot s) err :: reschedule s)
    as Hplain.
  { intros s' Hb Hrs err He. rewrite (since_catch_plain r err s' He).
    rewrite Hb, Hrs. reflexivity. }
  split; [|split; [exact Hr3|split; [|split; [|split]]]].
  - apply since_app. rewrite Hs3, Hs2. simpl. rewrite <- !app_assoc.
    reflexivity.
  - unfold on_reply. rewrite Hr3. reflexivity.
  - unfold on_reply at 1. rewrite Hr3.
    apply Hplain; [| |exact He2]; rewrite Hs3, Hs2; reflexivity.
  - unfold on_reply at 1. rewrite Hr2.
    apply Hplain; [| |exact He2]; rewrite Hs2; reflexivity.
  - unfold on_reply at 1. rewrite Hr1, Hnc.
    apply Hplain; [reflexivity|reflexivity|exact Hother].
Qed.

Lemma webhook_conflict_takeover_witness :
  let s := fresh quiet_bot in
  let s1 := _polling s in
  let s2 := on_reply 0 (Rejected conflict) 1000%Z s1 in
  let s3 := on_reply 0 (Fulfilled []) 2000%Z s2 in
  is_conflict conflict = true /\ _processing conflict = false
  /\ is_conflict timed_out = false /\ _processing timed_out = false
  /\ since s s3
     = [AGetUpdates 0 (mkParams 0%Z None 10%Z); ASetWebHook 0;
        AGetUpdates 0 (mkParams 0%Z None 10%Z)]
  /\ since s3 (on_reply 0 (Rejected conflict) 3000%Z s3)
     = [AEmit (polling_error conflict); ASetTimeout 0 300%Z]
  /\ since s1 (on_reply 0 (Rejected timed_out) 1000%Z s1)
     = [AEmit (polling_error timed_out); ASetTimeout 0 300%Z].
Proof.
  pose proof (webhook_conflict_takeover (fresh quiet_bot) conflict conflict
                timed_out [] [upd 1] 1000%Z 2000%Z 3000%Z
                eq_refl eq_refl eq_refl eq_refl) as H.
  vm_compute in H. destruct H as (H1 & _ & _ & H2 & _ & H3).
  vm_compute. do 4 (split; [reflexivity|]).
  split; [exact H1|]. split; [exact H2|exact H3].
Defined.

(** ** Rescheduling *)

(** C8: whatever the settlement of the request a cycle waits for, the
    cycle either ends in this turn or waits for one more request, and it
    ends after four settlements at most.  When it ends, by any path, the
    last thing it does is set the timer of the next [_polling] call, after
    [interval], unless [_abort] is set: then it sets no timer and the chain
    ends.  Before it ends it sets no timer. *)
Theorem cycle_always_reschedules (s : State) (r : nat) (st : Stage) :
  cycles s !! r = Some st -> in_flight st = true ->
  (forall (res : Reply) (now : Z),
      let s1 := on_reply r res now s in
      (cycles s1 !! r = Some Settled ->
       exists t,
         since s s1
         = t ++ (if _abort s then []
                 else [ASetTimeout (next_timer s) (interval s)])
         /\ List.filter is_timeout t = []
         /\ timers s1
            = (if _abort s then timers s else timers s ++ [next_timer s])
         /\ (_abort s = false ->
             cycles (on_timer (next_timer s) s1) = cycles s1 ++ [Fetching]))
      /\ (cycles s1 !! r <> Some Settled ->
          exists st',
            cycles s1 !! r = Some st' /\ in_flight st' = true
            /\ rank st' < rank st
            /\ timers s1 = timers s
            /\ List.filter is_timeout (since s s1) = []))
  /\ (forall replies : list (Reply * Z),
         4 <= length replies ->
         cycles (run s (replies_to r replies)) !! r = Some Settled).
Proof.
  intros Hr Hst. pose proof (lookup_lt_Some _ _ _ Hr) as Hlt. split.
  - intros res now s1.
    destruct (on_reply_cases s r st res now Hr Hst)
      as [(s0 & Hl & Hs1)|(s0 & st' & Hl & Hfl & Hrk & Hs1)];
      fold s1 in Hs1.
    + destruct (finally_schedule r s s0 Hl)
        as ((t & Ht & Hq) & Htm & _ & _ & _ & _ & Hcy & _).
      rewrite <- Hs1 in Ht, Htm, Hcy. split.
      * intros _. exists t. rewrite (since_app _ _ _ Ht).
        split; [reflexivity|]. split; [apply (quiet_no_timeout r), Hq|].
        split; [exact Htm|]. intros Hab. unfold on_timer.
        rewrite Htm, Hab, existsb_last. reflexivity.
      * intros Hne. exfalso. apply Hne. rewrite Hcy.
        apply list_lookup_insert_eq. exact Hlt.
    + destruct (suspend_schedule r st' s s0 Hl)
        as ((t & Ht & Hq) & Htm & _ & _ & _ & _ & Hcy & _).
      rewrite <- Hs1 in Ht, Htm, Hcy.
      assert (cycles s1 !! r = Some st') as Hr'.
      { rewrite Hcy. apply list_lookup_insert_eq. exact Hlt. }
      split.
      * intros Hset. rewrite Hr' in Hset. injection Hset as ->.
        discriminate.
      * intros _. exists st'. rewrite (since_app _ _ _ Ht).
        repeat split; try assumption. apply (quiet_no_timeout r), Hq.
  - intros replies Hlen. apply (cycle_settles r replies s st Hr).
    + intros ->. discriminate.
    + pose proof (rank_le_4 st). lia.
Qed.

Lemma cycle_always_reschedules_witness :
  let s := run (fresh quiet_bot) [EStart false] in
  let s1 := on_reply 0 (Rejected timed_out) 1000%Z s in
  cycles s !! 0 = Some Fetching /\ in_flight Fetching = true
  /\ cycles s1 !! 0 = Some Settled /\ _abort s = false
  /\ timers s1 = [0]
  /\ cycles (on_timer 0 s1) = [Settled; Fetching]
  /\ cycles (run s (replies_to 0 [(Rejected conflict, 1000%Z);
                                  (Fulfilled [], 2000%Z);
                                  (Fulfilled [upd 5], 3000%Z);
                                  (Fulfilled [], 4000%Z)])) !! 0
     = Some Settled.
Proof.
  pose proof (cycle_always_reschedules
                (run (fresh quiet_bot) [EStart false]) 0 Fetching
                ltac:(vm_compute; reflexivity) eq_refl) as [H1 H2].
  destruct (H1 (Rejected timed_out) 1000%Z) as [H3 _].
  destruct (H3 ltac:(vm_compute; reflexivity)) as (t & _ & _ & H4 & H5).
  pose proof (H5 ltac:(vm_compute; reflexivity)) as H6.
  pose proof (H2 [(Rejected conflict, 1000%Z); (Fulfilled [], 2000%Z);
                  (Fulfilled [upd 5], 3000%Z); (Fulfilled [], 4000%Z)]
                ltac:(simpl; lia)) as H7.
  vm_compute in H4, H6, H7. vm_compute.
  do 4 (split; [reflexivity|]). split; [exact H4|].
  split; [exact H6|exact H7].
Defined.

(** ** Reachable states *)

Lemma consistent_same (s s' : State) :
  length (cycles s') = length (cycles s) ->
  (forall x, In x (stoppers s') -> In x (stoppers s)) ->
  _lastRequest s' = _lastRequest s ->
  consistent s -> consistent s'.
Proof.
  intros Hlen Hst Hlr [H1 H2]. split.
  - intros x Hx. rewrite Hlen. apply H1, Hst, Hx.
  - intros r Hr. rewrite Hlr in Hr. destruct (H2 r Hr) as [Ha Hb].
    rewrite Hlen. split; [exact Ha|]. intros Hin. apply Hb, Hst, Hin.
Qed.

Lemma consistent_none (s' : State) :
  _lastRequest s' = None ->
  (forall x, In x (stoppers s') -> x < length (cycles s')) ->
  consistent s'.
Proof.
  intros Hlr Hst. split; [exact Hst|]. intros r Hr. congruence.
Qed.

Lemma consistent_polling (s : State) : consistent s -> consistent (_polling s).
Proof.
  intros [H1 H2]. unfold _polling. split; simpl.
  - intros x Hx. rewrite length_app. simpl. specialize (H1 x Hx). lia.
  - intros r [= <-]. rewrite length_app. simpl. split; [lia|].
    intros Hin. specialize (H1 _ Hin). lia.
Qed.

Lemma consistent_stopped (s : State) : consistent s -> consistent (stopped s).
Proof. apply consistent_same; auto. Qed.

Lemma length_cancel (r : nat) (reason : string) (s : State) :
  length (cycles (cancel r reason s)) = length (cycles s).
Proof.
  unfold cancel. simpl. destruct (cycles s !! r) as [st|]; [|reflexivity].
  destruct (in_flight st); simpl; [apply length_insert|reflexivity].
Qed.

Lemma cancel_frame (r : nat) (reason : string) (s : State) :
  stoppers (cancel r reason s) = stoppers s
  /\ jobs (cancel r reason s) = jobs s
  /\ _lastRequest (cancel r reason s) = _lastRequest s
  /\ _isPollingActive (cancel r reason s) = _isPollingActive s
  /\ timers (cancel r reason s) = timers s
  /\ params (cancel r reason s) = params s
  /\ trace (cancel r reason s) = trace s ++ [ACancel r reason].
Proof.
  unfold cancel. simpl. destruct (cycles s !! r) as [st|]; [|simpl; tauto].
  destruct (in_flight st); simpl; tauto.
Qed.

Lemma clearTimeout_frame (h : option nat) (s : State) :
  cycles (clearTimeout h s) = cycles s
  /\ stoppers (clearTimeout h s) = stoppers s
  /\ jobs (clearTimeout h s) = jobs s
  /\ _lastRequest (clearTimeout h s) = _lastRequest s
  /\ _isPollingActive (clearTimeout h s) = _isPollingActive s
  /\ _abort (clearTimeout h s) = _abort s
  /\ params (clearTimeout h s) = params s
  /\ bot (clearTimeout h s) = bot s
  /\ trace (clearTimeout h s) = trace s ++ [AClearTimeout h].
Proof. unfold clearTimeout. destruct h; simpl; tauto. Qed.

Lemma consistent_stop (c : bool) (reason : option string) (s : State) :
  consistent s -> consistent (fst (stop c reason s)).
Proof.
  intros Hs. unfold stop. destruct (_lastRequest s) as [r|] eqn:Hlr;
    [|exact Hs].
  destruct Hs as [H1 H2]. destruct (H2 r Hlr) as [Hr _].
  set (s2 := clearTimeout (_pollingTimeout (set_lastRequest None s))
               (set_lastRequest None s)).
  destruct (clearTimeout_frame (_pollingTimeout (set_lastRequest None s))
              (set_lastRequest None s))
    as (Hc & Hst & _ & Hn & _).
  fold s2 in Hc, Hst, Hn. simpl in Hc, Hst, Hn.
  destruct c; simpl fst.
  - destruct (cancel_frame r (stop_reason reason) s2)
      as (Hst' & _ & Hn' & _).
    apply consistent_none.
    + simpl. rewrite Hn'. exact Hn.
    + simpl. intros x. rewrite length_cancel, Hst', Hst, Hc. apply H1.
  - unfold on_finally. simpl cycles. rewrite Hc.
    destruct (cycles s !! r) as [[| | | | |]|]; apply consistent_none;
      simpl; rewrite ?Hc, ?Hst; try exact Hn; try exact H1;
      intros x Hx; apply in_app_or in Hx as [Hx|[<-|[]]];
      try (apply H1, Hx); lia.
Qed.

Lemma on_reply_unchanged (s : State) (r : nat) (res : Reply) (now : Z) :
  (forall st, cycles s !! r = Some st -> in_flight st = false) ->
  on_reply r res now s = s.
Proof.
  intros H. unfold on_reply. destruct (cycles s !! r) as [st|] eqn:Hr;
    [|reflexivity].
  specialize (H st eq_refl). destruct st; try discriminate; reflexivity.
Qed.

Lemma in_remove_id (x r : nat) (l : list nat) :
  In x (remove_id r l) -> In x l.
Proof. unfold remove_id. intros H. apply filter_In in H. tauto. Qed.

Lemma consistent_on_reply (r : nat) (res : Reply) (now : Z) (s : State) :
  consistent s -> consistent (on_reply r res now s).
Proof.
  intros Hs. destruct (cycles s !! r) as [st|] eqn:Hr.
  - destruct (in_flight st) eqn:Hfl.
    + destruct (on_reply_cases s r st res now Hr Hfl)
        as [(s0 & Hl & ->)|(s0 & st' & Hl & _ & _ & ->)].
      * destruct (finally_schedule r s s0 Hl)
          as (_ & _ & _ & _ & _ & Hlr & Hcy & Hst & _).
        apply (consistent_same s); [| |exact Hlr|exact Hs].
        -- rewrite Hcy. apply length_insert.
        -- rewrite Hst. intros x. apply in_remove_id.
      * destruct (suspend_schedule r st' s s0 Hl)
          as (_ & _ & _ & _ & _ & Hlr & Hcy & Hst & _).
        apply (consistent_same s); [| |exact Hlr|exact Hs].
        -- rewrite Hcy. apply length_insert.
        -- rewrite Hst. auto.
    + rewrite on_reply_unchanged; [exact Hs|].
      intros st0 H0. congruence.
  - rewrite on_reply_unchanged; [exact Hs|]. intros st0 H0. congruence.
Qed.

Lemma consistent_handle (ev : Event) (s : State) :
  consistent s -> consistent (handle ev s).
Proof.
  intros Hs. destruct ev as [restart|c reason|r res now|t]; simpl.
  - unfold start. destruct (_isPollingActive s).
    + destruct restart; simpl; [|exact Hs].
      apply (consistent_same
               (fst (stop true (Some "Polling restart")
                       (emit (polling_restart "Polling restart initiated")
                          s)))).
      1-3: auto.
      apply consistent_stop. revert Hs. apply consistent_same; auto.
    + simpl. apply consistent_polling. revert Hs.
      apply consistent_same; auto.
  - apply consistent_stop, Hs.
  - apply consistent_on_reply, Hs.
  - unfold on_timer. destruct (existsb (Nat.eqb t) (timers s)); [|exact Hs].
    apply consistent_polling. revert Hs. apply consistent_same; auto.
Qed.

Lemma consistent_run_jobs (l : list Job) (s : State) :
  consistent s -> consistent (fold_left run_job l s).
Proof.
  revert s; induction l as [|j l IH]; intros s Hs; simpl; [exact Hs|].
  apply IH. destruct j; simpl.
  - apply consistent_polling, Hs.
  - apply consistent_stopped, Hs.
Qed.

Lemma consistent_step (s : State) (ev : Event) :
  consistent s -> consistent (step s ev).
Proof.
  intros Hs. unfold step, drain. apply consistent_run_jobs.
  apply (consistent_same (handle ev s)); auto.
  apply consistent_handle, Hs.
Qed.

(** In every reachable state no promise reaction is pending and
    [_lastRequest], when set, is the chain of the cycle launched last. *)
Lemma reachable_consistent (s : State) :
  reachable s -> jobs s = [] /\ consistent s.
Proof.
  intros Hs. split; [apply reachable_quiescent, Hs|].
  destruct Hs as (b & polling & evs & ->).
  induction evs as [|ev evs IH] using rev_ind.
  - split; simpl; [intros x []|discriminate].
  - rewrite run_snoc. apply consistent_step, IH.
Qed.

(** ** Without a restart there is one chain at most *)

Lemma none_filter (l : list Stage) :
  (forall i st, l !! i = Some st -> in_flight st = false) ->
  List.filter in_flight l = [].
Proof.
  induction l as [|x l IH]; intros H; simpl; [reflexivity|].
  rewrite (H 0 x eq_refl). apply IH. intros i st Hi. exact (H (S i) st Hi).
Qed.

Lemma only_filter (l : list Stage) :
  forall r : nat,
    (forall i st, l !! i = Some st -> in_flight st = true -> i = r) ->
    length (List.filter in_flight l) <= 1.
Proof.
  induction l as [|x l IH]; intros r H; simpl; [lia|].
  destruct (in_flight x) eqn:Hx.
  - rewrite none_filter; [simpl; lia|].
    intros i st Hi. destruct (in_flight st) eqn:Hst; [|reflexivity].
    pose proof (H 0 x eq_refl Hx). pose proof (H (S i) st Hi Hst). lia.
  - destruct r as [|r].
    + rewrite none_filter; [simpl; lia|].
      intros i st Hi. destruct (in_flight st) eqn:Hst; [|reflexivity].
      pose proof (H (S i) st Hi Hst). lia.
    + apply (IH r). intros i st Hi Hst.
      pose proof (H (S i) st Hi Hst). lia.
Qed.

Lemma single_chain_chains (s : State) : single_chain s -> chains s <= 1.
Proof.
  unfold chains.
  intros [(Hj & _ & _ & _ & _ & Ht & Hn)
         |[(r & Hj & _ & _ & _ & _ & Ht & _ & Ho)
          |[(t & Hj & _ & _ & _ & _ & Ht & _ & Hn)
           |(r & Hj & _ & _ & _ & _ & Ht & _ & Ho)]]];
    rewrite Hj, Ht; simpl.
  - rewrite (none_filter _ Hn). simpl. lia.
  - pose proof (only_filter _ r Ho). lia.
  - rewrite (none_filter _ Hn). simpl. lia.
  - pose proof (only_filter _ r Ho). lia.
Qed.

Lemma step_noop (s : State) (ev : Event) :
  jobs s = [] -> handle ev s = s -> step s ev = s.
Proof. intros Hj H. unfold step. rewrite H. apply drain_quiescent, Hj. Qed.

Lemma none_then_polling (l : list Stage) (s' : State) :
  (forall i st, l !! i = Some st -> in_flight st = false) ->
  cycles s' = l ++ [Fetching] ->
  only_in_flight (length l) s'.
Proof.
  intros Hn Hc. unfold only_in_flight. rewrite Hc. split.
  - exists Fetching. split; [|reflexivity].
    apply list_lookup_middle. reflexivity.
  - intros i st Hi Hfl. apply lookup_app_Some in Hi as [Hi|[Hle Hi]].
    + rewrite (Hn i st Hi) in Hfl. discriminate.
    + apply list_lookup_singleton_Some in Hi as [Hi _]. lia.
Qed.

Lemma only_insert_in_flight (r : nat) (st' : Stage) (s s' : State) :
  only_in_flight r s -> cycles s' = <[r := st']> (cycles s) ->
  in_flight st' = true -> only_in_flight r s'.
Proof.
  intros [(st & Hr & _) Ho] Hc Hfl. unfold only_in_flight. rewrite Hc.
  split.
  - exists st'. split; [|exact Hfl]. apply list_lookup_insert_eq.
    exact (lookup_lt_Some _ _ _ Hr).
  - intros i x Hi Hx.
    apply list_lookup_insert_Some in Hi as [(-> & _)|[_ Hi]];
      [reflexivity|exact (Ho i x Hi Hx)].
Qed.

Lemma only_insert_done (r : nat) (st' : Stage) (s s' : State) :
  only_in_flight r s -> cycles s' = <[r := st']> (cycles s) ->
  in_flight st' = false -> none_in_flight s'.
Proof.
  intros [_ Ho] Hc Hfl i x Hi. rewrite Hc in Hi.
  apply list_lookup_insert_Some in Hi as [(_ & <- & _)|[Hne Hi]];
    [exact Hfl|].
  destruct (in_flight x) eqn:Hx; [|reflexivity].
  specialize (Ho i x Hi Hx). congruence.
Qed.

(** The state in which [stop] with [cancel] leaves the controller. *)
Lemma stop_cancel_state (s : State) (r : nat) (st : Stage)
      (reason : option string) :
  _lastRequest s = Some r -> cycles s !! r = Some st ->
  let s1 := fst (stop true reason s) in
  jobs s1 = jobs s /\ stoppers s1 = stoppers s /\ _abort s1 = _abort s
  /\ _isPollingActive s1 = false /\ _lastRequest s1 = None
  /\ timers s1
     = match _pollingTimeout s with
       | Some t => remove_id t (timers s)
       | None => timers s
       end
  /\ cycles s1
     = if in_flight st then <[r := Cancelled]> (cycles s) else cycles s.
Proof.
  intros Hlr Hr s1. unfold s1, stop. rewrite Hlr. cbv zeta. cbn [fst].
  unfold cancel.
  assert (cycles (log (ACancel r (stop_reason reason))
                    (clearTimeout (_pollingTimeout (set_lastRequest None s))
                       (set_lastRequest None s))) !! r = Some st) as ->.
  { destruct (_pollingTimeout s) eqn:Hpt; simpl; rewrite Hpt; exact Hr. }
  destruct (in_flight st); destruct (_pollingTimeout s) eqn:Hpt; simpl;
    rewrite Hpt; simpl; repeat split; reflexivity.
Qed.

(** The state in which [stop] without [cancel] leaves the controller,
    before the promise reactions run. *)
Lemma stop_graceful_state (s : State) (r : nat) (st : Stage)
      (reason : option string) :
  _lastRequest s = Some r -> cycles s !! r = Some st ->
  let s1 := fst (stop false reason s) in
  cycles s1 = cycles s /\ _abort s1 = true
  /\ _isPollingActive s1 = _isPollingActive s /\ _lastRequest s1 = None
  /\ timers s1
     = match _pollingTimeout s with
       | Some t => remove_id t (timers s)
       | None => timers s
       end
  /\ (if in_flight st
      then stoppers s1 = stoppers s ++ [r] /\ jobs s1 = jobs s
      else st = Settled ->
           stoppers s1 = stoppers s /\ jobs s1 = jobs s ++ [JStopped]).
Proof.
  intros Hlr Hr s1. unfold s1, stop. rewrite Hlr. cbv zeta. cbn [fst].
  unfold on_finally.
  assert (cycles (set_abort true
                    (clearTimeout (_pollingTimeout (set_lastRequest None s))
                       (set_lastRequest None s))) !! r = Some st) as ->.
  { destruct (_pollingTimeout s) eqn:Hpt; simpl; rewrite Hpt; exact Hr. }
  destruct st; destruct (_pollingTimeout s) eqn:Hpt; simpl;
    rewrite Hpt; simpl; repeat split; try reflexivity; discriminate.
Qed.

Lemma idle_step (s : State) (ev : Event) :
  idle s -> no_restart ev = true -> single_chain (step s ev).
Proof.
  intros (Hj & Ha & Hlr & Hab & Hst & Htm & Hn) Hev.
  assert (step s ev = s -> single_chain (step s ev)) as Hsame.
  { intros ->. left. unfold idle. auto 10. }
  destruct ev as [[|]|c reason|r res now|t]; try discriminate.
  - right. left. exists (length (cycles s)).
    assert (step s (EStart false)
            = _polling (set_isPollingActive true
                          (emit (polling_started "Polling started") s)))
      as ->.
    { unfold step, handle, start. rewrite Ha. simpl fst.
      apply drain_quiescent. exact Hj. }
    unfold cycling. simpl. repeat (split; [assumption || reflexivity|]).
    apply none_then_polling; [exact Hn|reflexivity].
  - apply Hsame, step_noop; [exact Hj|]. simpl. unfold stop.
    rewrite Hlr. reflexivity.
  - apply Hsame, step_noop; [exact Hj|]. simpl. apply on_reply_unchanged.
    intros st Hr. exact (Hn r st Hr).
  - apply Hsame, step_noop; [exact Hj|]. simpl. unfold on_timer.
    rewrite Htm. reflexivity.
Qed.

Lemma remove_id_single (t : nat) : remove_id t [t] = [].
Proof. unfold remove_id. simpl. rewrite Nat.eqb_refl. reflexivity. Qed.

Lemma cycling_step (r : nat) (s : State) (ev : Event) :
  cycling r s -> no_restart ev = true -> single_chain (step s ev).
Proof.
  intros (Hj & Ha & Hlr & Hab & Hst & Htm & Ho) Hev.
  assert (step s ev = s -> single_chain (step s ev)) as Hsame.
  { intros ->. right. left. exists r. unfold cycling. auto 10. }
  destruct Ho as [(st & Hr & Hfl) Honly].
  pose proof (conj (ex_intro _ st (conj Hr Hfl)) Honly
              : only_in_flight r s) as Ho.
  destruct ev as [[|]|[|] reason|r' res now|t]; try discriminate.
  - apply Hsame, step_noop; [exact Hj|]. simpl. unfold start.
    rewrite Ha. reflexivity.
  - left.
    destruct (stop_cancel_state s r st reason Hlr Hr)
      as (Hj1 & Hst1 & Hab1 & Ha1 & Hlr1 & Htm1 & Hc1).
    rewrite Hfl in Hc1. unfold step. simpl handle.
    rewrite drain_quiescent by congruence.
    unfold idle. repeat (split; [congruence|]). split.
    + rewrite Htm1, Htm. destruct (_pollingTimeout s); reflexivity.
    + apply (only_insert_done r Cancelled s); auto.
  - right. right. right. exists r.
    destruct (stop_graceful_state s r st reason Hlr Hr)
      as (Hc1 & Hab1 & Ha1 & Hlr1 & Htm1 & H1).
    rewrite Hfl in H1. destruct H1 as [Hst1 Hj1].
    unfold step. simpl handle. rewrite drain_quiescent by congruence.
    unfold halting. split; [congruence|]. split; [congruence|].
    split; [exact Hlr1|]. split; [exact Hab1|].
    split; [rewrite Hst1, Hst; reflexivity|]. split.
    + rewrite Htm1, Htm. destruct (_pollingTimeout s); reflexivity.
    + unfold only_in_flight. rewrite Hc1. exact Ho.
  - destruct (Nat.eq_dec r' r) as [->|Hne].
    + unfold step. simpl handle.
      destruct (on_reply_cases s r st res now Hr Hfl)
        as [(s0 & Hl & ->)|(s0 & st' & Hl & Hfl' & _ & ->)].
      * right. right. left. exists (next_timer s).
        destruct (finally_schedule r s s0 Hl)
          as (_ & Htm' & Hpt' & Hab' & Ha' & Hlr' & Hcy & Hst' & Hjb).
        set (s1 := finally_ r s0) in *. clearbody s1.
        rewrite Hab in Htm', Hpt'. rewrite Hj, Hst in Hjb. simpl in Hjb.
        rewrite Hst in Hst'. simpl in Hst'.
        rewrite drain_quiescent by exact Hjb.
        unfold resting. split; [exact Hjb|]. split; [congruence|]. split.
        { exists r. split; [congruence|]. rewrite Hcy.
          apply list_lookup_insert_eq. exact (lookup_lt_Some _ _ _ Hr). }
        split; [congruence|]. split; [exact Hst'|].
        split; [rewrite Htm', Htm; reflexivity|]. split; [exact Hpt'|].
        apply (only_insert_done r Settled s); auto.
      * right. left. exists r.
        destruct (suspend_schedule r st' s s0 Hl)
          as (_ & Htm' & _ & Hab' & Ha' & Hlr' & Hcy & Hst' & Hjb).
        rewrite drain_quiescent by congruence.
        unfold cycling. repeat (split; [congruence|]).
        apply (only_insert_in_flight r st' s); auto.
    + apply Hsame, step_noop; [exact Hj|]. simpl.
      apply on_reply_unchanged. intros st' Hr'.
      destruct (in_flight st') eqn:Hfl'; [|reflexivity].
      specialize (Honly r' st' Hr' Hfl'). congruence.
  - apply Hsame, step_noop; [exact Hj|]. simpl. unfold on_timer.
    rewrite Htm. reflexivity.
Qed.

Lemma resting_step (t : nat) (s : State) (ev : Event) :
  resting t s -> no_restart ev = true -> single_chain (step s ev).
Proof.
  intros (Hj & Ha & (r & Hlr & Hr) & Hab & Hst & Htm & Hpt & Hn) Hev.
  assert (step s ev = s -> single_chain (step s ev)) as Hsame.
  { intros ->. right. right. left. exists t. unfold resting.
    repeat (split; [assumption|]). split; [eauto|]. auto 10. }
  assert (forall s1, cycles s1 = cycles s -> none_in_flight s1) as Hnone.
  { intros s1 Hc i x Hi. rewrite Hc in Hi. exact (Hn i x Hi). }
  destruct ev as [[|]|[|] reason|r' res now|t']; try discriminate.
  - apply Hsame, step_noop; [exact Hj|]. simpl. unfold start.
    rewrite Ha. reflexivity.
  - left.
    destruct (stop_cancel_state s r Settled reason Hlr Hr)
      as (Hj1 & Hst1 & Hab1 & Ha1 & Hlr1 & Htm1 & Hc1).
    simpl in Hc1. rewrite Hpt, Htm, remove_id_single in Htm1.
    unfold step. simpl handle. rewrite drain_quiescent by congruence.
    unfold idle. repeat (split; [congruence|]). apply Hnone, Hc1.
  - left.
    destruct (stop_graceful_state s r Settled reason Hlr Hr)
      as (Hc1 & Hab1 & Ha1 & Hlr1 & Htm1 & H1).
    simpl in H1. destruct (H1 eq_refl) as [Hst1 Hj1].
    rewrite Hpt, Htm, remove_id_single in Htm1. rewrite Hj in Hj1.
    unfold step. simpl handle.
    set (s1 := fst (stop false reason s)) in *. clearbody s1.
    unfold drain. rewrite Hj1. simpl.
    unfold idle. simpl. repeat (split; [congruence|]).
    intros i x Hi. simpl in Hi. rewrite Hc1 in Hi. exact (Hn i x Hi).
  - apply Hsame, step_noop; [exact Hj|]. simpl.
    apply on_reply_unchanged. intros st' Hr'. exact (Hn r' st' Hr').
  - destruct (Nat.eqb_spec t' t) as [->|Hne].
    + right. left. exists (length (cycles s)).
      rewrite timer_starts_cycle;
        [|exact Hj|rewrite Htm; simpl; rewrite Nat.eqb_refl; reflexivity].
      unfold cycling. simpl.
      rewrite Htm, remove_id_single.
      repeat (split; [assumption || reflexivity|]).
      apply none_then_polling; [exact Hn|reflexivity].
    + apply Hsame, step_noop; [exact Hj|]. simpl. unfold on_timer.
      rewrite Htm. simpl.
      destruct (Nat.eqb_spec t' t); [contradiction|reflexivity].
Qed.

Lemma halting_step (r : nat) (s : State) (ev : Event) :
  halting r s -> no_restart ev = true -> single_chain (step s ev).
Proof.
  intros (Hj & Ha & Hlr & Hab & Hst & Htm & Ho) Hev.
  assert (step s ev = s -> single_chain (step s ev)) as Hsame.
  { intros ->. right. right. right. exists r. unfold halting. auto 10. }
  destruct Ho as [(st & Hr & Hfl) Honly].
  pose proof (conj (ex_intro _ st (conj Hr Hfl)) Honly
              : only_in_flight r s) as Ho.
  destruct ev as [[|]|c reason|r' res now|t]; try discriminate.
  - apply Hsame, step_noop; [exact Hj|]. simpl. unfold start.
    rewrite Ha. reflexivity.
  - apply Hsame, step_noop; [exact Hj|]. simpl. unfold stop.
    rewrite Hlr. reflexivity.
  - destruct (Nat.eq_dec r' r) as [->|Hne].
    + unfold step. simpl handle.
      destruct (on_reply_cases s r st res now Hr Hfl)
        as [(s0 & Hl & ->)|(s0 & st' & Hl & Hfl' & _ & ->)].
      * left.
        destruct (finally_schedule r s s0 Hl)
          as (_ & Htm' & Hpt' & Hab' & Ha' & Hlr' & Hcy & Hst' & Hjb).
        set (s1 := finally_ r s0) in *. clearbody s1.
        rewrite Hab in Htm', Hpt'. rewrite Hj, Hst in Hjb.
        unfold waiting in Hjb. simpl in Hjb. rewrite Nat.eqb_refl in Hjb.
        simpl in Hjb. rewrite Hst, remove_id_single in Hst'.
        unfold drain. rewrite Hjb. simpl.
        unfold idle. simpl. repeat (split; [congruence|]).
        apply (only_insert_done r Settled s); auto.
      * right. right. right. exists r.
        destruct (suspend_schedule r st' s s0 Hl)
          as (_ & Htm' & _ & Hab' & Ha' & Hlr' & Hcy & Hst' & Hjb).
        rewrite drain_quiescent by congruence.
        unfold halting. repeat (split; [congruence|]).
        apply (only_insert_in_flight r st' s); auto.
    + apply Hsame, step_noop; [exact Hj|]. simpl.
      apply on_reply_unchanged. intros st' Hr'.
      destruct (in_flight st') eqn:Hfl'; [|reflexivity].
      specialize (Honly r' st' Hr' Hfl'). congruence.
  - apply Hsame, step_noop; [exact Hj|]. simpl. unfold on_timer.
    rewrite Htm. reflexivity.
Qed.

(** A controller that is started and stopped but never restarted runs one
    cycle chain at most. *)
Lemma single_chain_run (b : Bot) (polling : PollingOption)
      (evs : list Event) :
  forallb no_restart evs = true ->
  single_chain (run (constructor b polling) evs).
Proof.
  induction evs as [|ev evs IH] using rev_ind; intros Hevs.
  - left. unfold idle. simpl. repeat (split; [reflexivity|]).
    intros i st Hi. destruct i; discriminate Hi.
  - rewrite forallb_app in Hevs. apply andb_prop in Hevs as [Hevs Hev].
    simpl in Hev. rewrite andb_true_r in Hev. rewrite run_snoc.
    destruct (IH Hevs) as [H|[(r & H)|[(t & H)|(r & H)]]].
    + apply idle_step; assumption.
    + apply (cycling_step r); assumption.
    + apply (resting_step t); assumption.
    + apply (halting_step r); assumption.
Qed.

(** ** Lifecycle *)

Lemma polling_step_start (s : State) :
  jobs s = [] -> _isPollingActive s = false ->
  step s (EStart false)
  = _polling (set_isPollingActive true
                (emit (polling_started "Polling started") s)).
Proof.
  intros Hj Ha. unfold step, handle, start. rewrite Ha. simpl fst.
  apply drain_quiescent. exact Hj.
Qed.

(** C2: in a reachable state with [_isPollingActive] set, [start] without
    [restart] returns an already resolved promise and changes nothing: no
    action is traced, no chain is added, the state is the same.  Calling
    [start] twice on a new controller leaves exactly one cycle chain, the
    one of the first call, and whatever the calls of [start] without
    [restart] and of [stop], the settlements and the timers, a controller
    never runs more than one cycle chain. *)
Theorem start_while_active_is_noop (s : State) :
  reachable s -> _isPollingActive s = true ->
  start false s = (s, OResolved)
  /\ step s (EStart false) = s
  /\ since s (step s (EStart false)) = []
  /\ chains (step s (EStart false)) = chains s
  /\ (forall (b : Bot) (polling : PollingOption),
         run (constructor b polling) [EStart false; EStart false]
         = run (constructor b polling) [EStart false]
         /\ chains (run (constructor b polling) [EStart false; EStart false])
            = 1)
  /\ (forall (b : Bot) (polling : PollingOption) (evs : list Event),
         forallb no_restart evs = true ->
         chains (run (constructor b polling) evs) <= 1).
Proof.
  intros Hs Ha. pose proof (reachable_quiescent s Hs) as Hj.
  assert (start false s = (s, OResolved)) as H1
    by (unfold start; rewrite Ha; reflexivity).
  assert (step s (EStart false) = s) as H2.
  { unfold step, handle. rewrite H1. apply drain_quiescent, Hj. }
  split; [exact H1|]. split; [exact H2|]. rewrite H2.
  split; [unfold since; apply drop_all|]. split; [reflexivity|].
  split.
  - intros b polling.
    assert (forall s', _isPollingActive s' = true -> jobs s' = [] ->
                       step s' (EStart false) = s') as Hnoop.
    { intros s' Ha' Hj'. unfold step, handle, start. rewrite Ha'.
      apply drain_quiescent, Hj'. }
    unfold run. simpl fold_left.
    rewrite (polling_step_start (constructor b polling) eq_refl eq_refl).
    rewrite Hnoop by reflexivity. split; reflexivity.
  - intros b polling evs Hevs.
    apply single_chain_chains, single_chain_run, Hevs.
Qed.

Lemma start_while_active_is_noop_witness :
  let s := run (fresh quiet_bot)
               [EStart false; EReply 0 (Fulfilled [upd 5]) 1000%Z] in
  reachable s /\ _isPollingActive s = true
  /\ start false s = (s, OResolved)
  /\ step s (EStart false) = s
  /\ chains (run (fresh quiet_bot)
                 [EStart false; EStart false; EStop false None;
                  EStart false; EReply 0 (Fulfilled [upd 5]) 1000%Z;
                  EStart false; EStart false]) <= 1.
Proof.
  pose proof (start_while_active_is_noop
                (run (fresh quiet_bot)
                     [EStart false; EReply 0 (Fulfilled [upd 5]) 1000%Z])
                (reachable_run _ _ _) ltac:(vm_compute; reflexivity))
    as (H1 & H2 & _ & _ & _ & H3).
  cbv zeta. split; [apply reachable_run|].
  split; [vm_compute; reflexivity|]. split; [exact H1|].
  split; [exact H2|]. apply H3. reflexivity.
Defined.

Lemma run_jobs_isPolling (l : list Job) (s : State) :
  isPolling s = true -> isPolling (fold_left run_job l s) = true.
Proof.
  revert s; induction l as [|j l IH]; intros s H; simpl; [exact H|].
  apply IH. destruct j; [reflexivity|exact H].
Qed.

Lemma drain_isPolling (s : State) :
  isPolling s = true -> isPolling (drain s) = true.
Proof. intros H. unfold drain. apply run_jobs_isPolling. exact H. Qed.

Lemma drain_restart (s : State) :
  isPolling (drain (push_job JPolling s)) = true.
Proof.
  unfold drain, push_job. simpl jobs. rewrite fold_left_app. reflexivity.
Qed.

Lemma on_reply_lastRequest (r : nat) (res : Reply) (now : Z) (s : State) :
  _lastRequest (on_reply r res now s) = _lastRequest s.
Proof.
  destruct (cycles s !! r) as [st|] eqn:Hr.
  - destruct (in_flight st) eqn:Hfl.
    + destruct (on_reply_cases s r st res now Hr Hfl)
        as [(s0 & Hl & ->)|(s0 & st' & Hl & _ & _ & ->)].
      * apply (finally_schedule r s s0 Hl).
      * apply (suspend_schedule r st' s s0 Hl).
    + rewrite on_reply_unchanged; [reflexivity|].
      intros st0 H0. congruence.
  - rewrite on_reply_unchanged; [reflexivity|]. intros st0 H0. congruence.
Qed.

(** No event but a call of [stop] clears [_lastRequest]. *)
Lemma isPolling_step (s : State) (ev : Event) :
  (forall c reason, ev <> EStop c reason) ->
  isPolling s = true -> isPolling (step s ev) = true.
Proof.
  intros Hev Hs. unfold step.
  destruct ev as [restart|c reason|r res now|t]; simpl handle.
  - unfold start. destruct (_isPollingActive s).
    + destruct restart; simpl fst; [apply drain_restart|].
      apply drain_isPolling, Hs.
    + apply drain_isPolling. reflexivity.
  - exfalso. exact (Hev c reason eq_refl).
  - apply drain_isPolling. unfold isPolling.
    rewrite on_reply_lastRequest. exact Hs.
  - apply drain_isPolling. unfold on_timer.
    destruct (existsb (Nat.eqb t) (timers s)); [reflexivity|exact Hs].
Qed.

(** C5, as amended: [isPolling()] answers whether the controller holds a
    request object in [_lastRequest]; in a reachable state that object is
    the chain of the cycle launched last.  Only a call of [stop] makes the
    answer false: a cycle that ends leaves [_lastRequest] in place, so the
    answer stays true between cycles, while only the timer of the next
    cycle is pending. *)
Theorem isPolling_holds_last_request (s : State) :
  reachable s ->
  (isPolling s = true <->
   exists r, _lastRequest s = Some r /\ S r = length (cycles s))
  /\ (forall ev : Event,
         (forall c reason, ev <> EStop c reason) ->
         isPolling s = true -> isPolling (step s ev) = true)
  /\ (forall (r : nat) (res : Reply) (now : Z),
         _lastRequest s = Some r ->
         cycles (step s (EReply r res now)) !! r = Some Settled ->
         isPolling (step s (EReply r res now)) = true).
Proof.
  intros Hs. destruct (reachable_consistent s Hs) as [_ [_ H2]].
  split; [|split].
  - unfold isPolling. split.
    + destruct (_lastRequest s) as [r|] eqn:Hr; [|discriminate].
      intros _. exists r. split; [reflexivity|]. apply (H2 r eq_refl).
    + intros (r & -> & _). reflexivity.
  - intros ev. apply isPolling_step.
  - intros r res now Hr _. apply isPolling_step; [discriminate|].
    unfold isPolling. rewrite Hr. reflexivity.
Qed.

Lemma isPolling_holds_last_request_witness :
  let s := run (fresh quiet_bot)
               [EStart false; EReply 0 (Fulfilled [upd 5]) 1000%Z] in
  reachable s
  /\ (isPolling s = true <->
      exists r, _lastRequest s = Some r /\ S r = length (cycles s))
  /\ isPolling (step s (ETimer 0)) = true.
Proof.
  pose proof (isPolling_holds_last_request
                (run (fresh quiet_bot)
                     [EStart false; EReply 0 (Fulfilled [upd 5]) 1000%Z])
                (reachable_run _ _ _)) as (H1 & H2 & _).
  cbv zeta. split; [apply reachable_run|]. split; [exact H1|].
  apply H2; [discriminate|vm_compute; reflexivity].
Defined.

(** C5 as stated fails between two cycles: the first cycle has ended, no
    cycle is in flight, only the timer of the next one is pending, and
    [isPolling()] is true. *)
Lemma isPolling_true_between_cycles :
  let s := run (fresh quiet_bot)
               [EStart false; EReply 0 (Fulfilled [upd 5]) 1000%Z] in
  _isPollingActive s = true /\ cycles s = [Settled]
  /\ cycle_in_flight s = false /\ timers s = [0]
  /\ isPolling s = true
  /\ ~ (isPolling s = true <-> cycle_in_flight s = true).
Proof.
  vm_compute. repeat split; try reflexivity.
  intros [H _]. specialize (H eq_refl). discriminate.
Qed.




(** ** A cancelled cycle stays cancelled *)

Lemma processed_by_app (r : nat) (s s' : State) (t : list Action) :
  trace s' = trace s ++ t -> List.filter (is_process_of r) t = [] ->
  processed_by r s' = processed_by r s.
Proof.
  intros Ht Hf. unfold processed_by. rewrite Ht, List.filter_app, Hf.
  apply app_nil_r.
Qed.

Lemma quiet_no_process (r r' : nat) (t : list Action) :
  r <> r' -> forallb (quiet r') t = true ->
  List.filter (is_process_of r) t = [].
Proof.
  intros Hne. induction t as [|a t IH]; simpl; [reflexivity|].
  intros H. apply andb_prop in H as [Ha Ht]. rewrite (IH Ht).
  destruct a; try reflexivity. simpl.
  unfold quiet in Ha. simpl in Ha. apply Nat.eqb_eq in Ha.
  destruct (Nat.eqb_spec r r0); [congruence|reflexivity].
Qed.

Lemma cancel_keeps_cancelled (r r' : nat) (reason : string) (s : State) :
  cycles s !! r = Some Cancelled ->
  cycles (cancel r' reason s) !! r = Some Cancelled.
Proof.
  intros Hr. unfold cancel. simpl.
  destruct (cycles s !! r') as [st|] eqn:Hr'; [|exact Hr].
  destruct (in_flight st) eqn:Hfl; [|exact Hr]. simpl.
  destruct (Nat.eq_dec r' r) as [->|Hne].
  - rewrite Hr in Hr'. injection Hr' as <-. discriminate.
  - rewrite list_lookup_insert_ne by exact Hne. exact Hr.
Qed.

Lemma polling_keeps_cancelled (r : nat) (s : State) :
  cycles s !! r = Some Cancelled ->
  cycles (_polling s) !! r = Some Cancelled
  /\ processed_by r (_polling s) = processed_by r s.
Proof.
  intros Hr. split.
  - simpl. apply lookup_app_l_Some. exact Hr.
  - apply (processed_by_app r s _ [AGetUpdates (length (cycles s)) (params s)]);
      reflexivity.
Qed.

Lemma stop_keeps_cancelled (r : nat) (c : bool) (reason : option string)
      (s : State) :
  cycles s !! r = Some Cancelled ->
  cycles (fst (stop c reason s)) !! r = Some Cancelled
  /\ processed_by r (fst (stop c reason s)) = processed_by r s.
Proof.
  intros Hr. unfold stop. destruct (_lastRequest s) as [r'|]; [|auto].
  cbv zeta.
  set (s2 := clearTimeout (_pollingTimeout (set_lastRequest None s))
               (set_lastRequest None s)).
  destruct (clearTimeout_frame (_pollingTimeout (set_lastRequest None s))
              (set_lastRequest None s))
    as (Hc & _ & _ & _ & _ & _ & _ & _ & Htr).
  fold s2 in Hc, Htr.
  change (cycles (set_lastRequest None s)) with (cycles s) in Hc.
  change (trace (set_lastRequest None s)) with (trace s) in Htr.
  destruct c; cbn [fst].
  - destruct (cancel_frame r' (stop_reason reason) s2)
      as (_ & _ & _ & _ & _ & _ & Htr').
    split.
    + cbn [cycles set_isPollingActive emit log].
      apply cancel_keeps_cancelled. rewrite Hc. exact Hr.
    + eapply processed_by_app.
      * cbn [trace set_isPollingActive emit log].
        rewrite Htr', Htr, <- !app_assoc. reflexivity.
      * reflexivity.
  - unfold on_finally. cbn [cycles set_abort]. rewrite Hc.
    destruct (cycles s !! r') as [[| | | | |]|];
      cbn [cycles trace set_stoppers push_job set_jobs set_abort];
      (split; [rewrite Hc; exact Hr|]);
      (eapply processed_by_app;
       [cbn [trace set_stoppers push_job set_jobs set_abort]; rewrite Htr;
        reflexivity|reflexivity]).
Qed.

Lemma on_reply_keeps_cancelled (r r' : nat) (res : Reply) (now : Z)
      (s : State) :
  cycles s !! r = Some Cancelled ->
  cycles (on_reply r' res now s) !! r = Some Cancelled
  /\ processed_by r (on_reply r' res now s) = processed_by r s.
Proof.
  intros Hr.
  destruct (cycles s !! r') as [st|] eqn:Hr'.
  - destruct (in_flight st) eqn:Hfl.
    + assert (r <> r') as Hne.
      { intros ->. rewrite Hr in Hr'. injection Hr' as <-. discriminate. }
      destruct (on_reply_cases s r' st res now Hr' Hfl)
        as [(s0 & Hl & ->)|(s0 & st' & Hl & _ & _ & ->)].
      * destruct (finally_schedule r' s s0 Hl)
          as ((t & Ht & Hq) & _ & _ & _ & _ & _ & Hcy & _).
        split.
        -- rewrite Hcy, list_lookup_insert_ne by congruence. exact Hr.
        -- apply (processed_by_app r s _ _ Ht).
           rewrite List.filter_app, (quiet_no_process r r' t Hne Hq).
           destruct (_abort s); reflexivity.
      * destruct (suspend_schedule r' st' s s0 Hl)
          as ((t & Ht & Hq) & _ & _ & _ & _ & _ & Hcy & _).
        split.
        -- rewrite Hcy, list_lookup_insert_ne by congruence. exact Hr.
        -- apply (processed_by_app r s _ _ Ht).
           exact (quiet_no_process r r' t Hne Hq).
    + rewrite on_reply_unchanged; [auto|]. intros st0 H0. congruence.
  - rewrite on_reply_unchanged; [auto|]. intros st0 H0. congruence.
Qed.

Lemma handle_keeps_cancelled (r : nat) (ev : Event) (s : State) :
  cycles s !! r = Some Cancelled ->
  cycles (handle ev s) !! r = Some Cancelled
  /\ processed_by r (handle ev s) = processed_by r s.
Proof.
  intros Hr. destruct ev as [restart|c reason|r' res now|t]; simpl.
  - unfold start. destruct (_isPollingActive s).
    + destruct restart; simpl; [|auto].
      destruct (stop_keeps_cancelled r true (Some "Polling restart")
                  (emit (polling_restart "Polling restart initiated") s) Hr)
        as [H1 H2].
      split; [exact H1|].
      change (processed_by r
                (fst (stop true (Some "Polling restart")
                        (emit (polling_restart "Polling restart initiated")
                           s)))
              = processed_by r s).
      rewrite H2. unfold processed_by. simpl. rewrite List.filter_app.
      apply app_nil_r.
    + simpl fst.
      destruct (polling_keeps_cancelled r
                  (set_isPollingActive true
                     (emit (polling_started "Polling started") s)) Hr)
        as [H1 H2].
      split; [exact H1|]. rewrite H2. unfold processed_by. simpl.
      rewrite List.filter_app. apply app_nil_r.
  - apply stop_keeps_cancelled, Hr.
  - apply on_reply_keeps_cancelled, Hr.
  - unfold on_timer. destruct (existsb (Nat.eqb t) (timers s)); [|auto].
    apply (polling_keeps_cancelled r
             (set_timers (remove_id t (timers s)) s)).
    exact Hr.
Qed.

Lemma run_jobs_keep_cancelled (r : nat) (l : list Job) (s : State) :
  cycles s !! r = Some Cancelled ->
  cycles (fold_left run_job l s) !! r = Some Cancelled
  /\ processed_by r (fold_left run_job l s) = processed_by r s.
Proof.
  revert s; induction l as [|j l IH]; intros s Hr; simpl; [auto|].
  destruct j; simpl.
  - destruct (polling_keeps_cancelled r s Hr) as [H1 H2].
    destruct (IH _ H1) as [H3 H4]. split; [exact H3|congruence].
  - destruct (IH (stopped s) Hr) as [H3 H4]. split; [exact H3|].
    rewrite H4. unfold processed_by. simpl. rewrite List.filter_app.
    apply app_nil_r.
Qed.

Lemma step_keeps_cancelled (r : nat) (s : State) (ev : Event) :
  cycles s !! r = Some Cancelled ->
  cycles (step s ev) !! r = Some Cancelled
  /\ processed_by r (step s ev) = processed_by r s.
Proof.
  intros Hr. destruct (handle_keeps_cancelled r ev s Hr) as [H1 H2].
  unfold step, drain.
  destruct (run_jobs_keep_cancelled r (jobs (handle ev s))
              (set_jobs [] (handle ev s)) H1) as [H3 H4].
  split; [exact H3|]. rewrite H4. exact H2.
Qed.

(** No later event makes a cancelled cycle call the processor. *)
Lemma cancelled_forever (r : nat) (evs : list Event) :
  forall s : State,
    cycles s !! r = Some Cancelled ->
    cycles (run s evs) !! r = Some Cancelled
    /\ processed_by r (run s evs) = processed_by r s.
Proof.
  induction evs as [|ev evs IH]; intros s Hr; [auto|]. simpl.
  destruct (step_keeps_cancelled r s ev Hr) as [H1 H2].
  destruct (IH _ H1) as [H3 H4]. split; [exact H3|congruence].
Qed.

(** C3, as amended: [stop] with [cancel] on a controller that holds in
    [_lastRequest] the request of a cycle in flight calls [cancel] on that
    chain, emits [polling_stopped], clears [_isPollingActive] and returns
    an already resolved promise with no callback left waiting on the
    cancelled chain.  Whatever happens afterwards, the cancelled cycle
    never calls the processor again ([cancel] being what its doc comment
    says). *)
Theorem stop_cancel_discards_batch (s : State) (r : nat) (st : Stage)
        (reason : option string) :
  _lastRequest s = Some r -> cycles s !! r = Some st ->
  in_flight st = true ->
  let s1 := fst (stop true reason s) in
  snd (stop true reason s) = OResolved
  /\ jobs s1 = jobs s /\ stoppers s1 = stoppers s
  /\ cycles s1 = <[r := Cancelled]> (cycles s)
  /\ cycles s1 !! r = Some Cancelled
  /\ _isPollingActive s1 = false
  /\ _lastRequest s1 = None
  /\ since s s1
     = [AClearTimeout (_pollingTimeout s);
        ACancel r (stop_reason reason);
        AEmit (polling_stopped "Polling stopped")]
  /\ (forall evs : list Event,
         processed_by r (run (step s (EStop true reason)) evs)
         = processed_by r s).
Proof.
  intros Hlr Hr Hfl s1. pose proof (lookup_lt_Some _ _ _ Hr) as Hlt.
  set (s2 := clearTimeout (_pollingTimeout s) (set_lastRequest None s)).
  destruct (clearTimeout_frame (_pollingTimeout s) (set_lastRequest None s))
    as (Hc & Hst & Hjb & Hn & _ & _ & _ & _ & Htr).
  fold s2 in Hc, Hst, Hjb, Hn, Htr.
  assert (stop true reason s
          = (set_isPollingActive false
               (emit (polling_stopped "Polling stopped")
                  (cancel r (stop_reason reason) s2)), OResolved)) as Hstop.
  { unfold stop. rewrite Hlr. reflexivity. }
  assert (cancel r (stop_reason reason) s2
          = set_cycles (<[r := Cancelled]> (cycles s))
              (log (ACancel r (stop_reason reason)) s2)) as Hcan.
  { unfold cancel. cbn [cycles log]. rewrite Hc. cbn [cycles set_lastRequest].
    rewrite Hr, Hfl. reflexivity. }
  assert (cycles s1 !! r = Some Cancelled) as Hr1.
  { unfold s1. rewrite Hstop, Hcan. simpl.
    apply list_lookup_insert_eq. exact Hlt. }
  unfold s1. rewrite Hstop. cbn [fst snd]. rewrite Hcan.
  split; [reflexivity|]. split; [exact Hjb|]. split; [exact Hst|].
  split; [reflexivity|].
  split; [unfold s1 in Hr1; rewrite Hstop, Hcan in Hr1; exact Hr1|].
  split; [reflexivity|]. split; [exact Hn|]. split.
  - apply since_app. simpl. rewrite Htr. simpl. rewrite <- !app_assoc.
    reflexivity.
  - intros evs.
    assert (cycles (step s (EStop true reason)) !! r = Some Cancelled
            /\ processed_by r (step s (EStop true reason))
               = processed_by r s) as [H1 H2].
    { unfold step, drain. simpl handle. fold s1.
      destruct (run_jobs_keep_cancelled r (jobs s1) (set_jobs [] s1) Hr1)
        as [H1 H2].
      split; [exact H1|]. rewrite H2. unfold s1. rewrite Hstop, Hcan.
      unfold processed_by. simpl. rewrite Htr. simpl.
      rewrite !List.filter_app. simpl. rewrite !app_nil_r. reflexivity. }
    destruct (cancelled_forever r evs _ H1) as [_ H3]. congruence.
Qed.

Lemma stop_cancel_discards_batch_witness :
  let s := run (fresh quiet_bot) [EStart false] in
  let s1 := step s (EStop true None) in
  _lastRequest s = Some 0 /\ cycles s !! 0 = Some Fetching
  /\ in_flight Fetching = true
  /\ snd (stop true None s) = OResolved
  /\ since s (fst (stop true None s))
     = [AClearTimeout None; ACancel 0 "Polling stop";
        AEmit (polling_stopped "Polling stopped")]
  /\ processed_by 0
       (run s1 [EReply 0 (Fulfilled [upd 5; upd 6]) 1000%Z; ETimer 0])
     = [].
Proof.
  pose proof (stop_cancel_discards_batch
                (run (fresh quiet_bot) [EStart false]) 0 Fetching None
                ltac:(vm_compute; reflexivity) ltac:(vm_compute; reflexivity)
                eq_refl) as H.
  cbv zeta in H. destruct H as (H1 & _ & _ & _ & _ & _ & _ & H2 & H3).
  cbv zeta. do 3 (split; [vm_compute; reflexivity|]).
  split; [exact H1|]. split; [rewrite H2; vm_compute; reflexivity|].
  rewrite H3. vm_compute. reflexivity.
Defined.

(** C3 as stated fails when the controller holds no request although a
    cycle is in flight, as it does while a graceful [stop] is waiting:
    [stop] with [cancel] then returns at its first line.  Nothing is
    cancelled, no [polling_stopped] is emitted, [_isPollingActive] stays
    set, and the batch that arrives is handed to the processor. *)
Lemma stop_cancel_without_request_does_nothing :
  let s := run (fresh quiet_bot) [EStart false; EStop false None] in
  let s1 := step s (EStop true None) in
  let s2 := step s1 (EReply 0 (Fulfilled [upd 5; upd 6]) 1000%Z) in
  reachable s
  /\ cycles s !! 0 = Some Fetching /\ cycle_in_flight s = true
  /\ _lastRequest s = None
  /\ stop true None s = (s, OResolved)
  /\ since s s1 = []
  /\ cycles s1 !! 0 = Some Fetching
  /\ _isPollingActive s1 = true
  /\ _isPollingActive s1 <> false
  /\ processed_by 0 s2 = [AProcess 0 (upd 5) 6%Z; AProcess 0 (upd 6) 7%Z]
  /\ processed_by 0 s2 <> processed_by 0 s.
Proof.
  cbv zeta. split; [apply reachable_run|].
  vm_compute. repeat split; try reflexivity; discriminate.
Qed.

(** ** Graceful stop *)











(** ** Scenarios *)

(** The batch [[{id:5},{id:6}]] is processed: the cursor becomes 7 and the
    next cycle is scheduled after [interval]. *)
Example scenario_batch_processed :
  let s := run (fresh quiet_bot)
               [EStart false;
                EReply 0 (Fulfilled [upd 5; upd 6]) 1000%Z] in
  offset (params s) = 7%Z
  /\ trace s
     = [AEmit (polling_started "Polling started");
        AGetUpdates 0 (mkParams 0%Z None 10%Z);
        AProcess 0 (upd 5) 6%Z;
        AProcess 0 (upd 6) 7%Z;
        ASetTimeout 0 300%Z]
  /\ timers s = [0].
Proof. vm_compute. repeat split. Qed.

(** The processor throws on the batch [[{id:5}]] and recovery is off: the
    cursor is 6 when the processor is called, the error is reported, and
    the next fetch is made at 6. *)
Example scenario_processor_throws :
  trace (run (fresh (poisoned_bot false))
             [EStart false; EReply 0 (Fulfilled [upd 5]) 1000%Z; ETimer 0])
  = [AEmit (polling_started "Polling started");
     AGetUpdates 0 (mkParams 0%Z None 10%Z);
     AProcess 0 (upd 5) 6%Z;
     AEmit (polling_error boom);
     ASetTimeout 0 300%Z;
     AGetUpdates 1 (mkParams 6%Z None 10%Z)].
Proof. vm_compute. reflexivity. Qed.

(** A restart followed by a plain [start] leaves two cycles in flight, and
    [stop] then reaches only the last one. *)
Example scenario_two_chains :
  let s := run (fresh quiet_bot)
               [EStart false; EStart true; EStart false;
                EStop true None] in
  cycles s = [Cancelled; Fetching; Cancelled]
  /\ _isPollingActive s = false /\ isPolling s = false /\ chains s = 1.
Proof. vm_compute. repeat split. Qed.

(** ** What a controller does and what it never changes *)

Lemma same_limit_refl (l : option Z) : same_limit l l = true.
Proof. destruct l; simpl; [apply Z.eqb_refl|reflexivity]. Qed.

Lemma allowed_config (s s' : State) (a : Action) :
  config s' = config s -> allowed s' a = allowed s a.
Proof.
  unfold config. intros [= Hb Hi Hl Ht]. unfold allowed.
  rewrite Hb, Hi, Hl, Ht. reflexivity.
Qed.

Lemma grows_refl (s : State) : grows s s.
Proof. split; [reflexivity|]. exists []. rewrite app_nil_r. auto. Qed.

Lemma grows_trans (s s1 s2 : State) :
  grows s s1 -> grows s1 s2 -> grows s s2.
Proof.
  intros [Hc (t & Ht & Ha)] [Hc' (t' & Ht' & Ha')]. split; [congruence|].
  exists (t ++ t'). rewrite Ht', Ht, <- app_assoc. split; [reflexivity|].
  rewrite forallb_app, Ha. simpl.
  rewrite <- Ha'. clear Ht' Ha'. induction t' as [|a t' IH]; simpl;
    [reflexivity|].
  rewrite IH, (allowed_config s s1 a Hc). reflexivity.
Qed.

Lemma grows_silent (s s' : State) :
  config s' = config s -> trace s' = trace s -> grows s s'.
Proof.
  intros Hc Ht. split; [exact Hc|]. exists []. rewrite app_nil_r. auto.
Qed.

Lemma grows_log (a : Action) (s : State) :
  allowed s a = true -> grows s (log a s).
Proof.
  intros Ha. split; [reflexivity|]. exists [a]. simpl. rewrite Ha. auto.
Qed.

Lemma grows_via (s s1 s2 : State) :
  grows s s1 -> config s2 = config s1 ->
  (exists t, trace s2 = trace s1 ++ t /\ forallb (allowed s1) t = true) ->
  grows s s2.
Proof. intros H Hc Ht. apply (grows_trans s s1 s2 H). split; assumption. Qed.

Lemma grows_error (err : Error) (s : State) : grows s (_error err s).
Proof.
  unfold _error, emit.
  destruct (polling_error_listeners (bot s)) eqn:Hl; apply grows_log;
    simpl; rewrite Hl; reflexivity.
Qed.

Lemma grows_finally (r : nat) (s : State) : grows s (finally_ r s).
Proof.
  unfold finally_. destruct (_abort s).
  - apply grows_silent; reflexivity.
  - apply (grows_trans s (log (ASetTimeout (next_timer s) (interval s)) s)).
    + apply grows_log. simpl. apply Z.eqb_refl.
    + apply grows_silent; reflexivity.
Qed.

Lemma allowed_process_actions (r : nat) (us : list Update) (s : State) :
  forallb (allowed s) (process_actions r us) = true.
Proof.
  induction us as [|u us IH]; simpl; [reflexivity|].
  rewrite Z.eqb_refl. exact IH.
Qed.

Lemma grows_after_updates (r : nat) (us : list Update) (s : State) :
  grows s (after_updates r us s).
Proof.
  split; [reflexivity|]. exists (process_actions r us).
  split; [reflexivity|apply allowed_process_actions].
Qed.

Lemma grows_fetch (r : nat) (s : State) : grows s (_getUpdates r s).
Proof.
  apply grows_log. simpl. rewrite same_limit_refl, Z.eqb_refl. reflexivity.
Qed.

Lemma grows_handleProcessingError (r : nat) (err : Error) (s : State) :
  grows s (_handleProcessingError r err s).
Proof.
  unfold _handleProcessingError. destruct (badRejection (bot s)); simpl negb;
    cbv iota.
  - eapply grows_trans; [apply grows_log|apply grows_silent; reflexivity].
    simpl. apply orb_true_r.
  - eapply grows_trans; [apply grows_error|apply grows_finally].
Qed.

Lemma grows_catch (r : nat) (err : Error) (s : State) :
  grows s (catch_ r err s).
Proof.
  unfold catch_. destruct (_processing err); simpl negb; cbv iota.
  - apply grows_handleProcessingError.
  - eapply grows_trans; [apply grows_error|apply grows_finally].
Qed.

Lemma grows_then (r : nat) (us : list Update) (now : Z) (s : State) :
  grows s (then_ r us now s).
Proof.
  unfold then_. rewrite forEach_spec.
  assert (grows s (after_updates r (attempted (bot (set_lastUpdate now s)) us)
                     (set_lastUpdate now s))) as H.
  { eapply grows_trans; [|apply grows_after_updates].
    apply grows_silent; reflexivity. }
  destruct (first_failure (bot (set_lastUpdate now s)) us); simpl option_map;
    cbv iota.
  - eapply grows_trans; [exact H|apply grows_catch].
  - eapply grows_trans; [exact H|apply grows_finally].
Qed.

Lemma grows_on_reply (r : nat) (res : Reply) (now : Z) (s : State) :
  grows s (on_reply r res now s).
Proof.
  unfold on_reply.
  destruct (cycles s !! r) as [[| | |e| |]|]; try apply grows_refl;
    destruct res as [us|err];
    try apply grows_then; try apply grows_catch.
  - destruct (is_conflict err); [|apply grows_catch].
    apply (grows_trans s (_unsetWebHook r s));
      [apply grows_log; reflexivity|apply grows_silent; reflexivity].
  - eapply grows_trans; [apply grows_fetch|apply grows_silent; reflexivity].
  - eapply grows_trans; [apply grows_error|apply grows_finally].
  - eapply grows_trans; [|apply grows_finally].
    unfold recovery_failed, emit.
    do 3 (eapply grows_trans; [|apply grows_log; reflexivity]).
    apply grows_log. reflexivity.
Qed.

Lemma grows_polling (s : State) : grows s (_polling s).
Proof.
  unfold _polling.
  eapply grows_trans; [apply grows_fetch|apply grows_silent; reflexivity].
Qed.

Lemma grows_clearTimeout (h : option nat) (s : State) :
  grows s (clearTimeout h s).
Proof.
  unfold clearTimeout.
  apply (grows_trans s (log (AClearTimeout h) s));
    [apply grows_log; reflexivity|].
  destruct h; apply grows_silent; reflexivity.
Qed.

Lemma grows_cancel (r : nat) (reason : string) (s : State) :
  grows s (cancel r reason s).
Proof.
  unfold cancel.
  apply (grows_trans s (log (ACancel r reason) s));
    [apply grows_log; reflexivity|].
  destruct (cycles (log (ACancel r reason) s) !! r) as [st|];
    [destruct (in_flight st)|]; apply grows_silent; reflexivity.
Qed.

Lemma grows_stop (c : bool) (reason : option string) (s : State) :
  grows s (fst (stop c reason s)).
Proof.
  unfold stop. destruct (_lastRequest s) as [r|]; [|apply grows_refl].
  cbv zeta.
  set (s2 := clearTimeout (_pollingTimeout (set_lastRequest None s))
               (set_lastRequest None s)).
  assert (grows s s2) as H.
  { apply (grows_trans s (set_lastRequest None s));
      [apply grows_silent; reflexivity|apply grows_clearTimeout]. }
  destruct c; cbn [fst].
  - eapply grows_trans; [exact H|].
    eapply grows_trans; [apply (grows_cancel r (stop_reason reason))|].
    apply (grows_trans _ (emit (polling_stopped "Polling stopped")
                            (cancel r (stop_reason reason) s2)));
      [apply grows_log; reflexivity|apply grows_silent; reflexivity].
  - eapply grows_trans; [exact H|]. unfold on_finally.
    destruct (cycles (set_abort true s2) !! r) as [[| | | | |]|];
      apply grows_silent; reflexivity.
Qed.

Lemma grows_start (restart : bool) (s : State) :
  grows s (fst (start restart s)).
Proof.
  unfold start. destruct (_isPollingActive s).
  - destruct restart; simpl negb; cbv iota; cbn [fst]; [|apply grows_refl].
    eapply (grows_trans _ (emit (polling_restart "Polling restart initiated") s)).
    + apply grows_log. reflexivity.
    + eapply grows_trans; [apply grows_stop|].
      apply grows_silent; reflexivity.
  - cbn [fst].
    eapply (grows_trans _ (set_isPollingActive true
                             (emit (polling_started "Polling started") s))).
    + apply (grows_trans s (emit (polling_started "Polling started") s));
        [apply grows_log; reflexivity|apply grows_silent; reflexivity].
    + apply grows_polling.
Qed.

Lemma grows_handle (ev : Event) (s : State) : grows s (handle ev s).
Proof.
  destruct ev as [restart|c reason|r res now|t]; simpl.
  - apply grows_start.
  - apply grows_stop.
  - apply grows_on_reply.
  - unfold on_timer. destruct (existsb (Nat.eqb t) (timers s));
      [|apply grows_refl].
    eapply grows_trans; [|apply grows_polling].
    apply grows_silent; reflexivity.
Qed.

Lemma grows_run_jobs (l : list Job) (s : State) :
  grows s (fold_left run_job l s).
Proof.
  revert s; induction l as [|j l IH]; intros s; simpl; [apply grows_refl|].
  eapply grows_trans; [|apply IH]. destruct j; simpl.
  - apply grows_polling.
  - unfold stopped.
    apply (grows_trans s (set_isPollingActive false (set_abort false s)));
      [apply grows_silent; reflexivity|apply grows_log; reflexivity].
Qed.

Lemma grows_step (s : State) (ev : Event) : grows s (step s ev).
Proof.
  unfold step, drain. eapply grows_trans; [apply grows_handle|].
  eapply grows_trans; [|apply grows_run_jobs].
  apply grows_silent; reflexivity.
Qed.

Lemma grows_run (evs : list Event) (s : State) : grows s (run s evs).
Proof.
  revert s; induction evs as [|ev evs IH]; intros s; [apply grows_refl|].
  simpl. eapply grows_trans; [apply grows_step|apply IH].
Qed.

(** X1: no event makes the controller assign its bot, its [interval], or
    the [limit] and [timeout] of its [params]: over any sequence of events
    they are what they were. *)
Theorem configuration_never_changes (s : State) (evs : list Event) :
  bot (run s evs) = bot s
  /\ interval (run s evs) = interval s
  /\ limit (params (run s evs)) = limit (params s)
  /\ timeout (params (run s evs)) = timeout (params s).
Proof.
  destruct (grows_run evs s) as [Hc _]. unfold config in Hc.
  injection Hc as Hb Hi Hl Ht. auto.
Qed.

Lemma same_limit_eq (a b : option Z) : same_limit a b = true -> a = b.
Proof.
  destruct a, b; simpl; try discriminate; [|reflexivity].
  intros H. apply Z.eqb_eq in H. congruence.
Qed.

Lemma grown_actions (s : State) (evs : list Event) :
  forallb (allowed s) (since s (run s evs)) = true.
Proof.
  destruct (grows_run evs s) as [_ (t & Ht & Ha)].
  rewrite (since_app _ _ _ Ht). exact Ha.
Qed.

Lemma configured_action (s : State) (evs : list Event) (a : Action) :
  In a (since s (run s evs)) ->
  match a with
  | AGetUpdates _ p =>
      (limit p = limit (params s) /\ timeout p = timeout (params s))
      \/ (limit p = Some 1%Z /\ timeout p = 0%Z)
  | ASetTimeout _ delay => delay = interval s
  | _ => True
  end.
Proof.
  intros Ha. pose proof (grown_actions s evs) as H.
  rewrite forallb_forall in H. specialize (H a Ha).
  destruct a; try exact I; simpl in H.
  - apply orb_prop in H as [H|H]; apply andb_prop in H as [H1 H2];
      apply same_limit_eq in H1; apply Z.eqb_eq in H2; auto.
  - apply Z.eqb_eq in H. exact H.
Qed.

(** X2: every [getUpdates] call of a run carries the configured [limit]
    and [timeout], or is the recovery call with [limit = 1] and
    [timeout = 0]; every timer of a run is set for the configured
    [interval]. *)
Theorem fetches_and_timers_follow_configuration (s : State)
        (evs : list Event) :
  Forall (fun a =>
            match a with
            | AGetUpdates _ p =>
                (limit p = limit (params s)
                 /\ timeout p = timeout (params s))
                \/ (limit p = Some 1%Z /\ timeout p = 0%Z)
            | ASetTimeout _ delay => delay = interval s
            | _ => True
            end) (since s (run s evs)).
Proof.
  apply Forall_forall. intros a Ha. apply list_elem_of_In in Ha.
  exact (configured_action s evs a Ha).
Qed.

(** X3: at every processor call of a run the cursor [params.offset] is the
    [update_id] of the update being processed plus one. *)
Theorem processor_always_finds_cursor_past_update (s : State)
        (evs : list Event) :
  Forall (fun a =>
            match a with
            | AProcess _ u o => o = (update_id u + 1)%Z
            | _ => True
            end) (since s (run s evs)).
Proof.
  apply Forall_forall. intros a Ha.
  pose proof (grown_actions s evs) as H.
  rewrite forallb_forall in H.
  apply list_elem_of_In in Ha. specialize (H a Ha).
  destruct a; try exact I; simpl in H. apply Z.eqb_eq in H. exact H.
Qed.

(** X4: an error is reported on one channel only: with a [polling_error]
    listener on the bot every report of a run is a [polling_error] event,
    without one every report is a console line. *)
Theorem errors_go_to_listeners_or_console (s : State) (evs : list Event) :
  Forall (fun a =>
            match a with
            | AEmit (polling_error _) =>
                polling_error_listeners (bot s) <> 0
            | AConsoleError (LPollingError _) =>
                polling_error_listeners (bot s) = 0
            | _ => True
            end) (since s (run s evs)).
Proof.
  apply Forall_forall. intros a Ha.
  pose proof (grown_actions s evs) as H.
  rewrite forallb_forall in H.
  apply list_elem_of_In in Ha. specialize (H a Ha).
  destruct a as [[| | |e|]|[e| | |]| | | | | |]; try exact I; simpl in H.
  - intros H0. rewrite H0 in H. discriminate.
  - apply Nat.eqb_eq in H. exact H.
Qed.

(** ** Where the cursor moves and the processor is called *)

Lemma untouched_refl (s : State) : untouched s s.
Proof. unfold untouched. auto. Qed.

Lemma untouched_trans (s s1 s2 : State) :
  untouched s s1 -> untouched s1 s2 -> untouched s s2.
Proof. unfold untouched. intros (-> & -> & ->) (-> & -> & ->). auto. Qed.

Lemma untouched_silent (s s' : State) :
  params s' = params s -> _lastUpdate s' = _lastUpdate s ->
  trace s' = trace s -> untouched s s'.
Proof. unfold untouched, calls. intros -> -> ->. auto. Qed.

Lemma untouched_log (a : Action) (s : State) :
  is_process a = false -> untouched s (log a s).
Proof.
  intros Ha. unfold untouched, calls. simpl.
  rewrite List.filter_app. simpl. rewrite Ha, app_nil_r. auto.
Qed.

Lemma untouched_error (err : Error) (s : State) : untouched s (_error err s).
Proof.
  unfold _error, emit. destruct (polling_error_listeners (bot s));
    apply untouched_log; reflexivity.
Qed.

Lemma untouched_finally (r : nat) (s : State) : untouched s (finally_ r s).
Proof.
  unfold finally_. destruct (_abort s).
  - apply untouched_silent; reflexivity.
  - apply (untouched_trans s
             (log (ASetTimeout (next_timer s) (interval s)) s));
      [apply untouched_log; reflexivity|apply untouched_silent; reflexivity].
Qed.

Lemma untouched_catch (r : nat) (err : Error) (s : State) :
  untouched s (catch_ r err s).
Proof.
  unfold catch_, _handleProcessingError.
  destruct (_processing err); simpl negb; cbv iota.
  - destruct (badRejection (bot s)); simpl negb; cbv iota.
    + apply (untouched_trans s
               (log (AGetUpdates r
                       (mkParams (offset (params s)) (Some 1%Z) 0%Z)) s));
        [apply untouched_log; reflexivity
        |apply untouched_silent; reflexivity].
    + eapply untouched_trans; [apply untouched_error|apply untouched_finally].
  - eapply untouched_trans; [apply untouched_error|apply untouched_finally].
Qed.

Lemma untouched_polling (s : State) : untouched s (_polling s).
Proof.
  unfold _polling.
  apply (untouched_trans s (_getUpdates (length (cycles s)) s));
    [apply untouched_log; reflexivity|apply untouched_silent; reflexivity].
Qed.

Lemma untouched_stop (c : bool) (reason : option string) (s : State) :
  untouched s (fst (stop c reason s)).
Proof.
  unfold stop. destruct (_lastRequest s) as [r|]; [|apply untouched_refl].
  cbv zeta.
  set (s2 := clearTimeout (_pollingTimeout (set_lastRequest None s))
               (set_lastRequest None s)).
  assert (untouched s s2) as H.
  { unfold s2, clearTimeout.
    apply (untouched_trans s
             (log (AClearTimeout (_pollingTimeout (set_lastRequest None s)))
                (set_lastRequest None s))).
    - apply (untouched_trans s (set_lastRequest None s));
        [apply untouched_silent; reflexivity|apply untouched_log; reflexivity].
    - destruct (_pollingTimeout (set_lastRequest None s));
        apply untouched_silent; reflexivity. }
  destruct c; cbn [fst].
  - eapply untouched_trans; [exact H|].
    apply (untouched_trans _ (cancel r (stop_reason reason) s2)).
    + unfold cancel.
      apply (untouched_trans _ (log (ACancel r (stop_reason reason)) s2));
        [apply untouched_log; reflexivity|].
      destruct (cycles (log (ACancel r (stop_reason reason)) s2) !! r)
        as [st|]; [destruct (in_flight st)|];
        apply untouched_silent; reflexivity.
    + apply (untouched_trans _ (emit (polling_stopped "Polling stopped")
                                  (cancel r (stop_reason reason) s2)));
        [apply untouched_log; reflexivity
        |apply untouched_silent; reflexivity].
  - eapply untouched_trans; [exact H|]. unfold on_finally.
    destruct (cycles (set_abort true s2) !! r) as [[| | | | |]|];
      apply untouched_silent; reflexivity.
Qed.

Lemma untouched_start (restart : bool) (s : State) :
  untouched s (fst (start restart s)).
Proof.
  unfold start. destruct (_isPollingActive s).
  - destruct restart; simpl negb; cbv iota; cbn [fst];
      [|apply untouched_refl].
    apply (untouched_trans _
             (emit (polling_restart "Polling restart initiated") s));
      [apply untouched_log; reflexivity|].
    eapply untouched_trans; [apply untouched_stop|].
    apply untouched_silent; reflexivity.
  - cbn [fst].
    apply (untouched_trans _
             (set_isPollingActive true
                (emit (polling_started "Polling started") s))).
    + apply (untouched_trans s (emit (polling_started "Polling started") s));
        [apply untouched_log; reflexivity
        |apply untouched_silent; reflexivity].
    + apply untouched_polling.
Qed.

Lemma untouched_run_jobs (l : list Job) (s : State) :
  untouched s (fold_left run_job l s).
Proof.
  revert s; induction l as [|j l IH]; intros s; simpl;
    [apply untouched_refl|].
  eapply untouched_trans; [|apply IH]. destruct j; simpl.
  - apply untouched_polling.
  - unfold stopped.
    apply (untouched_trans s (set_isPollingActive false (set_abort false s)));
      [apply untouched_silent; reflexivity|apply untouched_log; reflexivity].
Qed.

Lemma untouched_drain (s : State) : untouched s (drain s).
Proof.
  unfold drain. apply (untouched_trans s (set_jobs [] s));
    [apply untouched_silent; reflexivity|apply untouched_run_jobs].
Qed.

Lemma filter_is_process_actions (r : nat) (us : list Update) :
  List.filter is_process (process_actions r us) = process_actions r us.
Proof. induction us as [|u us IH]; simpl; [|rewrite IH]; reflexivity. Qed.

(** What one event does to the cursor, to [_lastUpdate] and to the list of
    processor calls. *)
Lemma step_bookkeeping (s : State) (ev : Event) :
  match batch_settlement s ev with
  | Some (r, us, now) =>
      offset (params (step s ev)) = cursor_after (attempted (bot s) us) s
      /\ _lastUpdate (step s ev) = now
      /\ calls (step s ev)
         = calls s ++ process_actions r (attempted (bot s) us)
  | None => untouched s (step s ev)
  end.
Proof.
  assert (forall r us now,
             let s1 := then_ r us now s in
             offset (params s1) = cursor_after (attempted (bot s) us) s
             /\ _lastUpdate s1 = now
             /\ calls s1 = calls s ++ process_actions r (attempted (bot s) us))
    as Hthen.
  { intros r us now s1. unfold s1, then_. rewrite forEach_spec. simpl bot.
    set (s2 := after_updates r (attempted (bot s) us) (set_lastUpdate now s)).
    assert (forall s3, untouched s2 s3 ->
              offset (params s3) = cursor_after (attempted (bot s) us) s
              /\ _lastUpdate s3 = now
              /\ calls s3
                 = calls s ++ process_actions r (attempted (bot s) us))
      as Hs2.
    { intros s3 (-> & -> & ->). unfold calls. simpl.
      rewrite List.filter_app, filter_is_process_actions. auto. }
    destruct (first_failure (bot s) us); simpl option_map; cbv iota;
      apply Hs2; [apply untouched_catch|apply untouched_finally]. }
  unfold step.
  destruct ev as [restart|c reason|r res now|t]; simpl batch_settlement;
    simpl handle.
  - eapply untouched_trans; [apply untouched_start|apply untouched_drain].
  - eapply untouched_trans; [apply untouched_stop|apply untouched_drain].
  - assert (forall s1, untouched s s1 -> untouched s (drain s1)) as Hd.
    { intros s1 H. eapply untouched_trans; [exact H|apply untouched_drain]. }
    assert (forall s1 us,
               offset (params s1) = cursor_after (attempted (bot s) us) s
               /\ _lastUpdate s1 = now
               /\ calls s1
                  = calls s ++ process_actions r (attempted (bot s) us) ->
               offset (params (drain s1))
               = cursor_after (attempted (bot s) us) s
               /\ _lastUpdate (drain s1) = now
               /\ calls (drain s1)
                  = calls s ++ process_actions r (attempted (bot s) us))
      as Hd'.
    { intros s1 us (H1 & H2 & H3).
      destruct (untouched_drain s1) as (-> & -> & ->). auto. }
    unfold on_reply.
    destruct (cycles s !! r) as [[| | |e| |]|]; destruct res as [us|err];
      simpl awaits_batch; cbv iota;
      try (apply Hd', Hthen); try (apply Hd, untouched_catch);
      try (apply Hd, untouched_refl).
    + destruct (is_conflict err); [|apply Hd, untouched_catch].
      apply Hd.
      apply (untouched_trans s (_unsetWebHook r s));
        [apply untouched_log; reflexivity|apply untouched_silent; reflexivity].
    + apply Hd.
      apply (untouched_trans s (_getUpdates r s));
        [apply untouched_log; reflexivity|apply untouched_silent; reflexivity].
    + apply Hd.
      eapply untouched_trans; [apply untouched_error|apply untouched_finally].
    + apply Hd. eapply untouched_trans; [|apply untouched_finally].
      unfold recovery_failed, emit.
      do 3 (eapply untouched_trans; [|apply untouched_log; reflexivity]).
      apply untouched_log. reflexivity.
  - eapply untouched_trans; [|apply untouched_drain].
    unfold on_timer. destruct (existsb (Nat.eqb t) (timers s));
      [|apply untouched_refl].
    eapply untouched_trans; [|apply untouched_polling].
    apply untouched_silent; reflexivity.
Qed.

(** X5: the cursor [params.offset] moves only when a batch is handed to a
    cycle that waits for one, and then to the [update_id] of the last
    update given to the processor plus one.  Calls of [start] and [stop],
    timers, rejected requests, the [setWebHook] reply and the reply to the
    recovery fetch leave it where it is, and so does an empty batch. *)
Theorem cursor_moves_only_with_a_batch (s : State) (ev : Event) :
  offset (params (step s ev))
  = match batch_settlement s ev with
    | Some (_, us, _) =>
        match last (attempted (bot s) us) with
        | Some u => (update_id u + 1)%Z
        | None => offset (params s)
        end
    | None => offset (params s)
    end.
Proof.
  pose proof (step_bookkeeping s ev) as H.
  destruct (batch_settlement s ev) as [[[r us] now]|].
  - apply H.
  - destruct H as (-> & _). reflexivity.
Qed.

(** X6: [_lastUpdate] is the time of the last fulfilled fetch of a batch,
    whether or not the processor then throws; no other event changes
    it. *)
Theorem lastUpdate_is_time_of_last_batch (s : State) (ev : Event) :
  _lastUpdate (step s ev)
  = match batch_settlement s ev with
    | Some (_, _, now) => now
    | None => _lastUpdate s
    end.
Proof.
  pose proof (step_bookkeeping s ev) as H.
  destruct (batch_settlement s ev) as [[[r us] now]|].
  - apply H.
  - destruct H as (_ & -> & _). reflexivity.
Qed.

(** X7: the processor is called only when a batch is handed to a cycle
    that waits for one: on the updates of that batch, in array order, up
    to and including the first one on which it throws.  No other event
    calls it. *)
Theorem processor_called_only_on_batches (s : State) (ev : Event) :
  calls (step s ev)
  = calls s
    ++ match batch_settlement s ev with
       | Some (r, us, _) =>
           map (fun u => AProcess r u (update_id u + 1)%Z)
               (attempted (bot s) us)
       | None => []
       end.
Proof.
  pose proof (step_bookkeeping s ev) as H.
  destruct (batch_settlement s ev) as [[[r us] now]|].
  - apply H.
  - destruct H as (_ & _ & ->). rewrite app_nil_r. reflexivity.
Qed.

(** X8: the result of the recovery fetch is thrown away: whatever updates
    it returns, none is given to the processor and the cursor does not
    move; the processing error is reported and the cycle ends. *)
Theorem recovery_fetch_result_is_discarded (s : State) (r : nat)
        (err : Error) (us : list Update) (now : Z) :
  cycles s !! r = Some (Recovering err) ->
  params (step s (EReply r (Fulfilled us) now)) = params s
  /\ calls (step s (EReply r (Fulfilled us) now)) = calls s
  /\ since s (on_reply r (Fulfilled us) now s)
     = report (bot s) err :: reschedule s
  /\ cycles (on_reply r (Fulfilled us) now s) !! r = Some Settled.
Proof.
  intros Hr. pose proof (step_bookkeeping s (EReply r (Fulfilled us) now)) as H.
  simpl in H. rewrite Hr in H. simpl in H. destruct H as (Hp & _ & Hc).
  split; [exact Hp|]. split; [exact Hc|].
  assert (on_reply r (Fulfilled us) now s = finally_ r (_error err s)) as ->
    by (unfold on_reply; rewrite Hr; reflexivity).
  split.
  - apply since_app.
    rewrite trace_finally, reschedule_error, trace_error, <- app_assoc.
    reflexivity.
  - destruct (finally_schedule r s (_error err s))
      as (_ & _ & _ & _ & _ & _ & -> & _).
    + apply logged_error, logged_refl.
    + exact (settled_here r _ s Hr).
Qed.

Lemma recovery_fetch_result_is_discarded_witness :
  let s := run (fresh (poisoned_bot true))
               [EStart false; EReply 0 (Fulfilled [upd 5]) 1000%Z] in
  let s1 := step s (EReply 0 (Fulfilled [upd 6; upd 7]) 2000%Z) in
  cycles s !! 0 = Some (Recovering boom)
  /\ offset (params s1) = 6%Z
  /\ calls s1 = [AProcess 0 (upd 5) 6%Z]
  /\ since s s1 = [AEmit (polling_error boom); ASetTimeout 0 300%Z].
Proof.
  pose proof (recovery_fetch_result_is_discarded
                (run (fresh (poisoned_bot true))
                     [EStart false; EReply 0 (Fulfilled [upd 5]) 1000%Z])
                0 boom [upd 6; upd 7] 2000%Z
                ltac:(vm_compute; reflexivity)) as (H1 & H2 & _).
  cbv zeta. split; [vm_compute; reflexivity|].
  split; [rewrite H1; vm_compute; reflexivity|].
  split; [rewrite H2; vm_compute; reflexivity|].
  vm_compute. reflexivity.
Defined.

(** ** More on [stop] and [start] *)

Lemma stop_clears_request (c : bool) (reason : option string) (s : State) :
  _lastRequest (fst (stop c reason s)) = None
  /\ (jobs (fst (stop c reason s)) = jobs s
      \/ jobs (fst (stop c reason s)) = jobs s ++ [JStopped]).
Proof.
  unfold stop. destruct (_lastRequest s) as [r|] eqn:Hlr; [|auto].
  cbv zeta.
  set (s2 := clearTimeout (_pollingTimeout (set_lastRequest None s))
               (set_lastRequest None s)).
  destruct (clearTimeout_frame (_pollingTimeout (set_lastRequest None s))
              (set_lastRequest None s))
    as (_ & _ & Hjb & Hn & _).
  fold s2 in Hjb, Hn. destruct c; cbn [fst].
  - destruct (cancel_frame r (stop_reason reason) s2)
      as (_ & Hjb' & Hn' & _).
    simpl. rewrite Hn', Hjb', Hn, Hjb. auto.
  - unfold on_finally.
    destruct (cycles (set_abort true s2) !! r) as [[| | | | |]|]; simpl;
      rewrite Hn, Hjb; auto.
Qed.

(** X9: after any call of [stop], [isPolling()] is false and a further
    call of [stop], with or without [cancel], returns a resolved promise
    and does nothing.  In particular a cycle that a graceful [stop] is
    waiting for cannot be cancelled any more. *)
Theorem stop_is_idempotent (s : State) (c1 c2 : bool)
        (reason1 reason2 : option string) :
  reachable s ->
  isPolling (step s (EStop c1 reason1)) = false
  /\ stop c2 reason2 (step s (EStop c1 reason1))
     = (step s (EStop c1 reason1), OResolved)
  /\ step (step s (EStop c1 reason1)) (EStop c2 reason2)
     = step s (EStop c1 reason1).
Proof.
  intros Hs. pose proof (reachable_quiescent s Hs) as Hj.
  assert (_lastRequest (step s (EStop c1 reason1)) = None) as Hn.
  { unfold step, drain. simpl handle.
    destruct (stop_clears_request c1 reason1 s) as [Hn [Hjb|Hjb]];
      rewrite Hjb, Hj; simpl; exact Hn. }
  assert (stop c2 reason2 (step s (EStop c1 reason1))
          = (step s (EStop c1 reason1), OResolved)) as Hstop
    by (unfold stop; rewrite Hn; reflexivity).
  split; [unfold isPolling; rewrite Hn; reflexivity|].
  split; [exact Hstop|].
  apply step_noop; [apply jobs_step|]. simpl. rewrite Hstop. reflexivity.
Qed.

Lemma stop_is_idempotent_witness :
  let s := run (fresh quiet_bot) [EStart false] in
  let s1 := step s (EStop false None) in
  reachable s
  /\ isPolling s1 = false
  /\ step s1 (EStop true None) = s1
  /\ cycles (step s1 (EStop true None)) = [Fetching].
Proof.
  pose proof (stop_is_idempotent (run (fresh quiet_bot) [EStart false])
                false true None None (reachable_run _ _ _))
    as (H1 & _ & H2).
  cbv zeta. split; [apply reachable_run|]. split; [exact H1|].
  split; [exact H2|]. rewrite H2. vm_compute. reflexivity.
Defined.




(** X11: [start] with [restart] while a graceful [stop] is still waiting
    (the flag is set but no request is held) cancels nothing: it emits
    [polling_restart] and launches a new cycle beside the one in flight,
    and [_abort] and the waiting callback stay as they are. *)
Theorem restart_during_graceful_stop (s : State) :
  reachable s -> _isPollingActive s = true -> _lastRequest s = None ->
  let s1 := step s (EStart true) in
  since s s1
  = [AEmit (polling_restart "Polling restart initiated");
     AGetUpdates (length (cycles s)) (params s)]
  /\ cycles s1 = cycles s ++ [Fetching]
  /\ _lastRequest s1 = Some (length (cycles s))
  /\ _abort s1 = _abort s
  /\ stoppers s1 = stoppers s
  /\ _isPollingActive s1 = true.
Proof.
  intros Hs Ha Hlr s1. pose proof (reachable_quiescent s Hs) as Hj.
  assert (s1 = _polling
                 (set_jobs []
                    (emit (polling_restart "Polling restart initiated") s)))
    as ->.
  { unfold s1, step. simpl handle. unfold start. rewrite Ha. simpl negb.
    cbv iota. unfold stop. cbn [_lastRequest emit log]. rewrite Hlr.
    cbn [fst]. unfold drain, push_job. simpl jobs. rewrite Hj. reflexivity. }
  split; [apply since_app; simpl; rewrite <- app_assoc; reflexivity|].
  simpl. auto.
Qed.

Lemma restart_during_graceful_stop_witness :
  let s := run (fresh quiet_bot) [EStart false; EStop false None] in
  let s1 := step s (EStart true) in
  reachable s /\ _isPollingActive s = true /\ _lastRequest s = None
  /\ cycles s1 = [Fetching; Fetching]
  /\ _abort s1 = true /\ stoppers s1 = [0].
Proof.
  pose proof (restart_during_graceful_stop
                (run (fresh quiet_bot) [EStart false; EStop false None])
                (reachable_run _ _ _) ltac:(vm_compute; reflexivity)
                ltac:(vm_compute; reflexivity))
    as (_ & H1 & _ & H2 & H3 & _).
  cbv zeta. split; [apply reachable_run|].
  do 2 (split; [vm_compute; reflexivity|]).
  split; [rewrite H1; vm_compute; reflexivity|].
  split; [rewrite H2; vm_compute; reflexivity|].
  rewrite H3. vm_compute. reflexivity.
Defined.

Lemma stop_reaches_stopped_mode (s : State) (c : bool)
      (reason : option string) :
  single_chain s -> stopped_mode (step s (EStop c reason)).
Proof.
  intros [H|[(r & H)|[(t & H)|(r & H)]]].
  - left. destruct H as (Hj & Ha & Hlr & Hab & Hst & Htm & Hn).
    rewrite step_noop; [unfold idle; auto 10|exact Hj|].
    simpl. unfold stop. rewrite Hlr. reflexivity.
  - destruct H as (Hj & Ha & Hlr & Hab & Hst & Htm & Ho).
    destruct Ho as [(st & Hr & Hfl) Honly].
    pose proof (conj (ex_intro _ st (conj Hr Hfl)) Honly
                : only_in_flight r s) as Ho.
    destruct c.
    + left.
      destruct (stop_cancel_state s r st reason Hlr Hr)
        as (Hj1 & Hst1 & Hab1 & Ha1 & Hlr1 & Htm1 & Hc1).
      rewrite Hfl in Hc1. unfold step. simpl handle.
      rewrite drain_quiescent by congruence.
      unfold idle. repeat (split; [congruence|]). split.
      * rewrite Htm1, Htm. destruct (_pollingTimeout s); reflexivity.
      * apply (only_insert_done r Cancelled s); auto.
    + right. exists r.
      destruct (stop_graceful_state s r st reason Hlr Hr)
        as (Hc1 & Hab1 & Ha1 & Hlr1 & Htm1 & H1).
      rewrite Hfl in H1. destruct H1 as [Hst1 Hj1].
      unfold step. simpl handle. rewrite drain_quiescent by congruence.
      unfold halting. split; [congruence|]. split; [congruence|].
      split; [exact Hlr1|]. split; [exact Hab1|].
      split; [rewrite Hst1, Hst; reflexivity|]. split.
      * rewrite Htm1, Htm. destruct (_pollingTimeout s); reflexivity.
      * unfold only_in_flight. rewrite Hc1. exact Ho.
  - left. destruct H as (Hj & Ha & (r & Hlr & Hr) & Hab & Hst & Htm & Hpt & Hn).
    assert (forall s1, cycles s1 = cycles s -> none_in_flight s1) as Hnone.
    { intros s1 Hc i x Hi. rewrite Hc in Hi. exact (Hn i x Hi). }
    destruct c.
    + destruct (stop_cancel_state s r Settled reason Hlr Hr)
        as (Hj1 & Hst1 & Hab1 & Ha1 & Hlr1 & Htm1 & Hc1).
      simpl in Hc1. rewrite Hpt, Htm, remove_id_single in Htm1.
      unfold step. simpl handle. rewrite drain_quiescent by congruence.
      unfold idle. repeat (split; [congruence|]). apply Hnone, Hc1.
    + destruct (stop_graceful_state s r Settled reason Hlr Hr)
        as (Hc1 & Hab1 & Ha1 & Hlr1 & Htm1 & H1).
      simpl in H1. destruct (H1 eq_refl) as [Hst1 Hj1].
      rewrite Hpt, Htm, remove_id_single in Htm1. rewrite Hj in Hj1.
      unfold step. simpl handle.
      set (s1 := fst (stop false reason s)) in *. clearbody s1.
      unfold drain. rewrite Hj1. simpl.
      unfold idle. simpl. repeat (split; [congruence|]).
      intros i x Hi. simpl in Hi. rewrite Hc1 in Hi. exact (Hn i x Hi).
  - right. exists r. destruct H as (Hj & Ha & Hlr & Hab & Hst & Htm & Ho).
    rewrite step_noop; [unfold halting; auto 10|exact Hj|].
    simpl. unfold stop. rewrite Hlr. reflexivity.
Qed.

Lemma stopped_mode_stays (s : State) (ev : Event) :
  stopped_mode s -> is_start ev = false ->
  stopped_mode (step s ev)
  /\ length (cycles (step s ev)) = length (cycles s).
Proof.
  intros Hs Hev.
  assert (step s ev = s ->
          stopped_mode (step s ev)
          /\ length (cycles (step s ev)) = length (cycles s)) as Hsame
    by (intros ->; auto).
  destruct Hs as [H|(r & H)].
  - destruct H as (Hj & Ha & Hlr & Hab & Hst & Htm & Hn).
    apply Hsame, step_noop; [exact Hj|].
    destruct ev as [restart|c reason|r res now|t]; try discriminate; simpl.
    + unfold stop. rewrite Hlr. reflexivity.
    + apply on_reply_unchanged. intros st Hr. exact (Hn r st Hr).
    + unfold on_timer. rewrite Htm. reflexivity.
  - destruct H as (Hj & Ha & Hlr & Hab & Hst & Htm & Ho).
    destruct Ho as [(st & Hr & Hfl) Honly].
    pose proof (conj (ex_intro _ st (conj Hr Hfl)) Honly
                : only_in_flight r s) as Ho.
    destruct ev as [restart|c reason|r' res now|t]; try discriminate.
    + apply Hsame, step_noop; [exact Hj|]. simpl. unfold stop.
      rewrite Hlr. reflexivity.
    + destruct (Nat.eq_dec r' r) as [->|Hne].
      * unfold step. simpl handle.
        destruct (on_reply_cases s r st res now Hr Hfl)
          as [(s0 & Hl & ->)|(s0 & st' & Hl & Hfl' & _ & ->)].
        -- destruct (finally_schedule r s s0 Hl)
             as (_ & Htm' & Hpt' & Hab' & Ha' & Hlr' & Hcy & Hst' & Hjb).
           set (s1 := finally_ r s0) in *. clearbody s1.
           rewrite Hab in Htm', Hpt'. rewrite Hj, Hst in Hjb.
           unfold waiting in Hjb. simpl in Hjb. rewrite Nat.eqb_refl in Hjb.
           simpl in Hjb. rewrite Hst, remove_id_single in Hst'.
           unfold drain. rewrite Hjb. simpl. split.
           ++ left. unfold idle. simpl. repeat (split; [congruence|]).
              apply (only_insert_done r Settled s); auto.
           ++ rewrite Hcy. apply length_insert.
        -- destruct (suspend_schedule r st' s s0 Hl)
             as (_ & Htm' & _ & Hab' & Ha' & Hlr' & Hcy & Hst' & Hjb).
           rewrite drain_quiescent by congruence. split.
           ++ right. exists r. unfold halting.
              repeat (split; [congruence|]).
              apply (only_insert_in_flight r st' s); auto.
           ++ rewrite Hcy. apply length_insert.
      * apply Hsame, step_noop; [exact Hj|]. simpl.
        apply on_reply_unchanged. intros st' Hr'.
        destruct (in_flight st') eqn:Hfl'; [|reflexivity].
        specialize (Honly r' st' Hr' Hfl'). congruence.
    + apply Hsame, step_noop; [exact Hj|]. simpl. unfold on_timer.
      rewrite Htm. reflexivity.
Qed.

Lemma stopped_mode_run (later : list Event) :
  forall s : State,
    stopped_mode s -> existsb is_start later = false ->
    stopped_mode (run s later)
    /\ length (cycles (run s later)) = length (cycles s).
Proof.
  induction later as [|ev later IH]; intros s Hs Hl; [auto|].
  simpl in Hl. apply orb_false_elim in Hl as [Hev Hl]. simpl.
  destruct (stopped_mode_stays s ev Hs Hev) as [H1 H2].
  destruct (IH _ H1 Hl) as [H3 H4]. split; [exact H3|congruence].
Qed.

(** X12: once [stop] has been called on a controller that was never
    restarted, no new cycle is launched until [start] is called again:
    whatever settlements, timers and further calls of [stop] follow, no
    timer is pending, no request is held and the cycles are those that
    existed when [stop] returned. *)
Theorem stopped_controller_launches_no_cycle (b : Bot)
        (polling : PollingOption) (evs later : list Event) (c : bool)
        (reason : option string) :
  forallb no_restart evs = true -> existsb is_start later = false ->
  let s1 := step (run (constructor b polling) evs) (EStop c reason) in
  let s2 := run s1 later in
  length (cycles s2) = length (cycles s1)
  /\ timers s2 = []
  /\ _lastRequest s2 = None
  /\ isPolling s2 = false.
Proof.
  intros Hevs Hlater s1 s2.
  pose proof (stop_reaches_stopped_mode _ c reason
                (single_chain_run b polling evs Hevs)) as Hs1.
  fold s1 in Hs1.
  destruct (stopped_mode_run later s1 Hs1 Hlater) as [Hs2 Hlen].
  fold s2 in Hs2, Hlen. split; [exact Hlen|].
  assert (timers s2 = [] /\ _lastRequest s2 = None) as [Ht Hn].
  { destruct Hs2 as [H|(r & H)];
      destruct H as (_ & _ & Hlr & _ & _ & Htm & _); auto. }
  split; [exact Ht|]. split; [exact Hn|].
  unfold isPolling. rewrite Hn. reflexivity.
Qed.

Lemma stopped_controller_launches_no_cycle_witness :
  let s1 := step (run (fresh quiet_bot)
                      [EStart false; EReply 0 (Fulfilled [upd 5]) 1000%Z;
                       ETimer 0])
                 (EStop false None) in
  let s2 := run s1 [EReply 1 (Rejected conflict) 2000%Z; ETimer 0;
                    EReply 1 (Fulfilled []) 3000%Z;
                    EStop true None;
                    EReply 1 (Fulfilled [upd 6]) 4000%Z; ETimer 1] in
  length (cycles s2) = 2 /\ cycles s2 = [Settled; Settled]
  /\ timers s2 = [] /\ isPolling s2 = false.
Proof.
  pose proof (stopped_controller_launches_no_cycle quiet_bot
                (PollingFlag true)
                [EStart false; EReply 0 (Fulfilled [upd 5]) 1000%Z; ETimer 0]
                [EReply 1 (Rejected conflict) 2000%Z; ETimer 0;
                 EReply 1 (Fulfilled []) 3000%Z;
                 EStop true None;
                 EReply 1 (Fulfilled [upd 6]) 4000%Z; ETimer 1]
                false None eq_refl eq_refl) as (H1 & H2 & _ & H3).
  cbv zeta. split; [etransitivity; [exact H1|vm_compute; reflexivity]|].
  split; [vm_compute; reflexivity|]. split; [exact H2|exact H3].
Defined.

(** ** The cursor and the updates that were not processed *)

Lemma increasing_head (u : Update) (l : list Update) :
  increasing (u :: l) = true ->
  increasing l = true
  /\ forall v, In v l -> (update_id u < update_id v)%Z.
Proof.
  revert u; induction l as [|w l IH]; intros u H.
  - split; [reflexivity|]. intros v [].
  - cbn [increasing] in H. apply andb_prop in H as [Huw Hl].
    apply Z.ltb_lt in Huw. split; [exact Hl|].
    destruct (IH w Hl) as [_ Hw]. intros v [<-|Hv]; [exact Huw|].
    specialize (Hw v Hv). lia.
Qed.

Lemma increasing_around (pre post : list Update) (u : Update) :
  increasing (pre ++ u :: post) = true ->
  (forall v, In v pre -> (update_id v < update_id u)%Z)
  /\ (forall v, In v post -> (update_id u < update_id v)%Z).
Proof.
  induction pre as [|p pre IH]; intros H.
  - split; [intros v []|]. apply (increasing_head u post H).
  - change ((p :: pre) ++ u :: post) with (p :: (pre ++ u :: post)) in H.
    destruct (increasing_head p _ H) as [Hl Hp].
    destruct (IH Hl) as [H1 H2]. split; [|exact H2].
    intros v [<-|Hv]; [|exact (H1 v Hv)].
    apply Hp. apply in_or_app. right. left. reflexivity.
Qed.

(** X13: when the processor throws on an update of a batch whose
    identifiers increase, the cursor stops just past that update: every
    update handed to the processor, the failing one included, is behind
    the cursor, and every update after the failing one is at or beyond
    it, so none of the updates that were not processed is passed over. *)
Theorem cursor_never_passes_an_unprocessed_update (s : State) (r : nat)
        (st : Stage) (pre post : list Update) (u : Update) (err : Error)
        (now : Z) :
  cycles s !! r = Some st -> awaits_batch st = true ->
  increasing (pre ++ u :: post) = true ->
  forallb (succeeds (bot s)) pre = true ->
  processUpdate (bot s) u = Some err ->
  let cursor :=
    offset (params (step s (EReply r (Fulfilled (pre ++ u :: post)) now))) in
  cursor = (update_id u + 1)%Z
  /\ Forall (fun v => (update_id v < cursor)%Z) (pre ++ [u])
  /\ Forall (fun v => (cursor <= update_id v)%Z) post.
Proof.
  intros Hr Hst Hinc Hpre Hu cursor.
  assert (cursor = (update_id u + 1)%Z) as Hc.
  { unfold cursor. rewrite (offset_follows_last s r st _ now Hr Hst).
    destruct (attempted_until (bot s) pre post u err Hpre Hu) as [-> _].
    rewrite last_snoc. reflexivity. }
  destruct (increasing_around pre post u Hinc) as [H1 H2].
  split; [exact Hc|]. rewrite Hc. split.
  - apply Forall_forall. intros v Hv. apply list_elem_of_In in Hv.
    apply in_app_or in Hv as [Hv|[<-|[]]]; [specialize (H1 v Hv)|]; lia.
  - apply Forall_forall. intros v Hv. apply list_elem_of_In in Hv.
    specialize (H2 v Hv). lia.
Qed.

Lemma cursor_never_passes_an_unprocessed_update_witness :
  let s := run (fresh (poisoned_bot false)) [EStart false] in
  let batch := [upd 3] ++ upd 5 :: [upd 6; upd 9] in
  cycles s !! 0 = Some Fetching /\ awaits_batch Fetching = true
  /\ increasing batch = true
  /\ forallb (succeeds (bot s)) [upd 3] = true
  /\ processUpdate (bot s) (upd 5) = Some boom
  /\ offset (params (step s (EReply 0 (Fulfilled batch) 1000%Z))) = 6%Z.
Proof.
  pose proof (cursor_never_passes_an_unprocessed_update
                (run (fresh (poisoned_bot false)) [EStart false]) 0 Fetching
                [upd 3] [upd 6; upd 9] (upd 5) boom 1000%Z
                ltac:(vm_compute; reflexivity) eq_refl eq_refl
                ltac:(vm_compute; reflexivity)
                ltac:(vm_compute; reflexivity)) as (H & _).
  cbv zeta. do 5 (split; [vm_compute; reflexivity|]). exact H.
Defined.

(** ** The entry point *)

Ltac decimal_digit IH tail Htail :=
  cbn [DecimalString.NilEmpty.string_of_uint append parse_digits
       Nat.of_uint_acc];
  match goal with
  | |- context [is_digit ?c] => change (is_digit c) with true
  end;
  cbv iota; rewrite <- (IH _ tail Htail); f_equal;
  match goal with
  | |- context [digit_value ?c] =>
      let v := eval vm_compute in (digit_value c) in
      change (digit_value c) with v
  end;
  rewrite Nat.tail_mul_spec; lia.

Lemma parse_digits_decimal (d : Decimal.uint) :
  forall (acc : nat) (tail : string),
    match tail with
    | String c _ => is_digit c = false
    | EmptyString => True
    end ->
    parse_digits (Z.of_nat acc)
                 (DecimalString.NilEmpty.string_of_uint d ++ tail)%string
    = Z.of_nat (Nat.of_uint_acc d acc).
Proof.
  induction d as [|d IH|d IH|d IH|d IH|d IH|d IH|d IH|d IH|d IH|d IH];
    intros acc tail Htail; try decimal_digit IH tail Htail.
  simpl. destruct tail as [|c tail]; [reflexivity|]. simpl.
  rewrite Htail. reflexivity.
Qed.

Lemma first_segment_decimal (d : Decimal.uint) (rest : string) :
  first_segment (DecimalString.NilEmpty.string_of_uint d
                 ++ String "." rest)%string
  = DecimalString.NilEmpty.string_of_uint d
  /\ first_segment (DecimalString.NilEmpty.string_of_uint d)
     = DecimalString.NilEmpty.string_of_uint d.
Proof.
  induction d as [|d [IH1 IH2]|d [IH1 IH2]|d [IH1 IH2]|d [IH1 IH2]
                  |d [IH1 IH2]|d [IH1 IH2]|d [IH1 IH2]|d [IH1 IH2]
                  |d [IH1 IH2]|d [IH1 IH2]];
    simpl; rewrite ?IH1, ?IH2; auto.
Qed.

Lemma digit_is_plain (c : ascii) :
  is_digit c = true ->
  is_white_space c = false /\ Ascii.eqb c "-" = false
  /\ Ascii.eqb c "+" = false.
Proof.
  destruct c as [[|] [|] [|] [|] [|] [|] [|] [|]]; vm_compute;
    intros H; try discriminate H; auto.
Qed.

Lemma parseInt10_digits (c : ascii) (str : string) :
  is_digit c = true ->
  parseInt10 (String c str) = Some (parse_digits 0 (String c str)).
Proof.
  intros Hc. destruct (digit_is_plain c Hc) as (Hw & Hm & Hp).
  unfold parseInt10. cbn [trim_start]. rewrite Hw, Hm, Hp, Hc.
  rewrite Z.mul_1_l. reflexivity.
Qed.

Lemma decimal_starts_with_digit (n : nat) :
  exists c str, decimal n = String c str /\ is_digit c = true.
Proof.
  unfold decimal.
  assert (Nat.to_uint n <> Decimal.Nil) as Hn.
  { rewrite <- (DecimalNat.Unsigned.of_to n) at 1.
    rewrite DecimalNat.Unsigned.to_of. apply DecimalFacts.unorm_nonnil. }
  destruct (Nat.to_uint n); [contradiction| ..];
    eexists _, _; split; reflexivity.
Qed.

Lemma parseInt10_decimal (n : nat) : parseInt10 (decimal n) = Some (Z.of_nat n).
Proof.
  destruct (decimal_starts_with_digit n) as (c & str & Hd & Hc).
  rewrite Hd, (parseInt10_digits c str Hc), <- Hd. f_equal.
  unfold decimal.
  pose proof (parse_digits_decimal (Nat.to_uint n) 0 EmptyString I) as H.
  assert (forall x : string, (x ++ "")%string = x) as Happ
    by (induction x as [|a x IH]; simpl; [|rewrite IH]; reflexivity).
  rewrite Happ in H. change (Z.of_nat 0) with 0%Z in H. rewrite H. f_equal.
  apply DecimalNat.Unsigned.of_to.
Qed.

(** X14: [index.js] decides on the major version alone, read as a decimal
    number: for a Node version that starts with the decimal writing of
    [n], alone or followed by a dot and anything else, it exports
    [./lib/telegram], with the deprecation warning, when [n <= 5], and
    [./src/telegram], with no warning, otherwise. *)
Theorem index_selects_by_major_version (n : nat) (rest : string) :
  majorVersion (decimal n ++ String "." rest)%string = Some (Z.of_nat n)
  /\ majorVersion (decimal n) = Some (Z.of_nat n)
  /\ index (decimal n ++ String "." rest)%string
     = (if Nat.leb n 5 then (LibTelegram, [legacy_warning])
        else (SrcTelegram, []))
  /\ index (decimal n) = index (decimal n ++ String "." rest)%string.
Proof.
  destruct (first_segment_decimal (Nat.to_uint n) rest) as [H1 H2].
  fold (decimal n) in H1, H2.
  assert (majorVersion (decimal n ++ String "." rest)%string
          = Some (Z.of_nat n)) as Ha
    by (unfold majorVersion; rewrite H1; apply parseInt10_decimal).
  assert (majorVersion (decimal n) = Some (Z.of_nat n)) as Hb
    by (unfold majorVersion; rewrite H2; apply parseInt10_decimal).
  split; [exact Ha|]. split; [exact Hb|]. unfold index. rewrite Ha, Hb.
  split; [|reflexivity].
  destruct (Nat.leb_spec n 5) as [H|H];
    [rewrite (proj2 (Z.leb_le _ _)) by lia
    |rewrite (proj2 (Z.leb_gt _ _)) by lia]; reflexivity.
Qed.

Lemma starts_with_digit_first_segment (str : string) :
  starts_with_digit (first_segment str) = starts_with_digit str.
Proof.
  destruct str as [|c rest]; [reflexivity|]. cbn [first_segment].
  destruct (Ascii.eqb_spec c ".") as [->|_]; reflexivity.
Qed.

Lemma parseInt10_space (c : ascii) (str : string) :
  is_white_space c = true -> parseInt10 (String c str) = parseInt10 str.
Proof.
  intros Hc. unfold parseInt10. cbn [trim_start]. rewrite Hc. reflexivity.
Qed.

Lemma parseInt10_sign (c : ascii) (str : string) :
  c = "+"%char \/ c = "-"%char ->
  (parseInt10 (String c str) = None <-> starts_with_digit str = false).
Proof.
  intros [-> | ->]; unfold parseInt10; cbn [trim_start];
    change (is_white_space "+") with false;
    change (is_white_space "-") with false; cbv iota;
    change (Ascii.eqb "+" "-") with false;
    change (Ascii.eqb "+" "+") with true;
    change (Ascii.eqb "-" "-") with true; cbv iota;
    destruct str as [|d str]; cbn [starts_with_digit];
    try tauto; destruct (is_digit d); split; intros H;
    reflexivity || discriminate H.
Qed.

Lemma parseInt10_other (c : ascii) (str : string) :
  is_white_space c = false -> c <> "+"%char -> c <> "-"%char ->
  (parseInt10 (String c str) = None <-> is_digit c = false).
Proof.
  intros Hw Hp Hm. unfold parseInt10. cbn [trim_start]. rewrite Hw.
  rewrite (proj2 (Ascii.eqb_neq c "-") Hm).
  rewrite (proj2 (Ascii.eqb_neq c "+") Hp).
  destruct (is_digit c); split; intros H; reflexivity || discriminate H.
Qed.

Lemma dot_is_plain (c : ascii) :
  c = "."%char ->
  is_digit c = false /\ is_white_space c = false
  /\ c <> "+"%char /\ c <> "-"%char.
Proof. intros ->. repeat split; discriminate. Qed.

Lemma space_is_no_dot (c : ascii) :
  is_white_space c = true -> Ascii.eqb c "." = false.
Proof.
  intros H. destruct (Ascii.eqb_spec c ".") as [->|_]; [discriminate H|].
  reflexivity.
Qed.

Lemma majorVersion_numberless (v : string) :
  majorVersion v = None <-> numberless v.
Proof.
  unfold majorVersion. split.
  - induction v as [|c rest IH]; intros H; [constructor|].
    cbn [first_segment] in H.
    destruct (Ascii.eqb_spec c ".") as [Hdot|Hdot].
    { destruct (dot_is_plain c Hdot) as (H1 & H2 & H3 & H4).
      apply numberless_other; assumption. }
    destruct (is_white_space c) eqn:Hw.
    { rewrite (parseInt10_space c _ Hw) in H.
      apply numberless_space; [exact Hw|exact (IH H)]. }
    destruct (Ascii.eqb_spec c "+") as [Hp|Hp].
    { apply numberless_sign; [auto|].
      rewrite <- starts_with_digit_first_segment.
      apply (parseInt10_sign c); auto. }
    destruct (Ascii.eqb_spec c "-") as [Hm|Hm].
    { apply numberless_sign; [auto|].
      rewrite <- starts_with_digit_first_segment.
      apply (parseInt10_sign c); auto. }
    apply numberless_other; auto.
    apply (parseInt10_other c (first_segment rest)); assumption.
  - induction 1 as [|c rest Hw _ IH|c rest Hc Hd|c rest Hd Hw Hp Hm];
      [reflexivity|..]; cbn [first_segment].
    + rewrite (space_is_no_dot c Hw), (parseInt10_space c _ Hw). exact IH.
    + destruct (Ascii.eqb_spec c ".") as [Hdot|_];
        [destruct Hc as [-> | ->]; discriminate Hdot|].
      apply (parseInt10_sign c); [exact Hc|].
      rewrite starts_with_digit_first_segment. exact Hd.
    + destruct (Ascii.eqb_spec c ".") as [_|_]; [reflexivity|].
      apply (parseInt10_other c); assumption.
Qed.

(** X15: [parseInt] gives [NaN] exactly when the version does not begin,
    after white space and a sign, with a digit (the empty string, [" x"],
    ["-x"], ["+"], [".5"], ["v18.16.0"]); the comparison with 5 is then
    false and [index.js] exports [./src/telegram] without a warning. *)
Theorem index_without_a_number_selects_src (v : string) :
  (majorVersion v = None <-> numberless v)
  /\ (numberless v -> index v = (SrcTelegram, [])).
Proof.
  split; [apply majorVersion_numberless|]. intros H.
  apply majorVersion_numberless in H. unfold index. rewrite H. reflexivity.
Qed.

Lemma index_without_a_number_selects_src_witness :
  numberless " -x.5" /\ numberless "+" /\ numberless "v18.16.0"
  /\ index " -x.5" = (SrcTelegram, [])
  /\ majorVersion " -5.x" = Some (-5)%Z /\ ~ numberless " -5.x".
Proof.
  assert (numberless " -x.5") as H1.
  { apply numberless_space; [reflexivity|].
    apply numberless_sign; [right; reflexivity|reflexivity]. }
  split; [exact H1|].
  split; [apply numberless_sign; [left|]; reflexivity|].
  split; [apply numberless_other; [reflexivity|reflexivity|..]; discriminate|].
  split; [exact (proj2 (index_without_a_number_selects_src " -x.5") H1)|].
  split; [reflexivity|]. intros H.
  apply (proj1 (index_without_a_number_selects_src " -5.x")) in H.
  discriminate H.
Defined.

(** ** Construction and the life of the loop *)

(** X16: the settings of the constructor take effect for the whole run.
    With a boolean [polling] option every fetch is made with
    [timeout = 10] and no [limit] (or is the recovery fetch), every timer
    waits 300 ms, and the first fetch is made at offset 0; a numeric
    [polling.timeout] (deprecated) overrides [polling.params.timeout] in
    every fetch. *)
Theorem constructor_settings_take_effect (b : Bot) (evs : list Event) :
  (forall flag : bool,
      let s0 := constructor b (PollingFlag flag) in
      Forall (fun a =>
                match a with
                | AGetUpdates _ p =>
                    (limit p = None /\ timeout p = 10%Z)
                    \/ (limit p = Some 1%Z /\ timeout p = 0%Z)
                | ASetTimeout _ delay => delay = 300%Z
                | _ => True
                end) (trace (run s0 evs))
      /\ trace (step s0 (EStart false))
         = [AEmit (polling_started "Polling started");
            AGetUpdates 0 (mkParams 0%Z None 10%Z)])
  /\ (forall (o : PollingObject) (t : Z),
         opt_deprecated_timeout o = Some t ->
         Forall (fun a =>
                   match a with
                   | AGetUpdates _ p =>
                       timeout p = t
                       \/ (limit p = Some 1%Z /\ timeout p = 0%Z)
                   | _ => True
                   end) (trace (run (constructor b (PollingOptions o)) evs))).
Proof.
  assert (forall s0, trace s0 = [] -> trace (run s0 evs) = since s0 (run s0 evs))
    as Hsince.
  { intros s0 H0. unfold since. rewrite H0. reflexivity. }
  split.
  - intros flag s0. split; [|reflexivity].
    rewrite (Hsince s0 eq_refl). apply Forall_forall. intros a Ha.
    apply list_elem_of_In in Ha.
    exact (configured_action s0 evs a Ha).
  - intros o t Ht.
    rewrite (Hsince (constructor b (PollingOptions o)) eq_refl).
    apply Forall_forall. intros a Ha. apply list_elem_of_In in Ha.
    pose proof (configured_action _ evs a Ha) as H.
    destruct a; try exact I. simpl in H. rewrite Ht in H.
    destruct H as [[_ H]|H]; auto.
Qed.

Lemma constructor_settings_take_effect_witness :
  opt_deprecated_timeout
    (mkPollingObject (Some 50%Z)
                     (Some (mkParamsOption (Some 7%Z) None (Some 3%Z)))
                     (Some 25%Z)) = Some 25%Z
  /\ Forall (fun a =>
               match a with
               | AGetUpdates _ p =>
                   timeout p = 25%Z
                   \/ (limit p = Some 1%Z /\ timeout p = 0%Z)
               | _ => True
               end)
            (trace (run (constructor quiet_bot
                           (PollingOptions
                              (mkPollingObject
                                 (Some 50%Z)
                                 (Some (mkParamsOption (Some 7%Z) None
                                                       (Some 3%Z)))
                                 (Some 25%Z))))
                        [EStart false; EReply 0 (Fulfilled [upd 5]) 1%Z])).
Proof.
  split; [reflexivity|].
  exact (proj2 (constructor_settings_take_effect
                  quiet_bot
                  [EStart false; EReply 0 (Fulfilled [upd 5]) 1%Z])
               (mkPollingObject (Some 50%Z)
                  (Some (mkParamsOption (Some 7%Z) None (Some 3%Z)))
                  (Some 25%Z))
               25%Z eq_refl).
Defined.

Lemma some_filter (l : list Stage) :
  forall (r : nat) (st : Stage),
    l !! r = Some st -> in_flight st = true ->
    1 <= length (List.filter in_flight l).
Proof.
  induction l as [|x l IH]; intros r st Hr Hfl; [destruct r; discriminate Hr|].
  simpl. destruct r as [|r].
  - injection Hr as ->. rewrite Hfl. simpl. lia.
  - destruct (in_flight x); simpl; [lia|]. exact (IH r st Hr Hfl).
Qed.

Lemma polling_mode_chains (s : State) :
  polling_mode s ->
  chains s = 1 /\ _isPollingActive s = true /\ _abort s = false
  /\ isPolling s = true.
Proof.
  unfold chains, isPolling.
  intros [(r & Hj & Ha & Hlr & Hab & _ & Ht & [(st & Hr & Hfl) Ho])
         |(t & Hj & Ha & (r & Hlr & _) & Hab & _ & Ht & _ & Hn)];
    rewrite Hj, Ht, Hlr; simpl.
  - pose proof (only_filter _ r Ho). pose proof (some_filter _ r st Hr Hfl).
    repeat split; auto; lia.
  - rewrite (none_filter _ Hn). auto.
Qed.

Lemma polling_mode_step (s : State) (ev : Event) :
  polling_mode s -> no_restart ev = true -> is_stop ev = false ->
  polling_mode (step s ev).
Proof.
  intros [(r & H)|(t & H)] Hev Hns.
  - destruct H as (Hj & Ha & Hlr & Hab & Hst & Htm & Ho).
    assert (step s ev = s -> polling_mode (step s ev)) as Hsame.
    { intros ->. left. exists r. unfold cycling. auto 10. }
    destruct Ho as [(st & Hr & Hfl) Honly].
    pose proof (conj (ex_intro _ st (conj Hr Hfl)) Honly
                : only_in_flight r s) as Ho.
    destruct ev as [[|]|c reason|r' res now|t]; try discriminate.
    + apply Hsame, step_noop; [exact Hj|]. simpl. unfold start.
      rewrite Ha. reflexivity.
    + destruct (Nat.eq_dec r' r) as [->|Hne].
      * unfold step. simpl handle.
        destruct (on_reply_cases s r st res now Hr Hfl)
          as [(s0 & Hl & ->)|(s0 & st' & Hl & Hfl' & _ & ->)].
        -- right. exists (next_timer s).
           destruct (finally_schedule r s s0 Hl)
             as (_ & Htm' & Hpt' & Hab' & Ha' & Hlr' & Hcy & Hst' & Hjb).
           set (s1 := finally_ r s0) in *. clearbody s1.
           rewrite Hab in Htm', Hpt'. rewrite Hj, Hst in Hjb. simpl in Hjb.
           rewrite Hst in Hst'. simpl in Hst'.
           rewrite drain_quiescent by exact Hjb.
           unfold resting. split; [exact Hjb|]. split; [congruence|]. split.
           { exists r. split; [congruence|]. rewrite Hcy.
             apply list_lookup_insert_eq. exact (lookup_lt_Some _ _ _ Hr). }
           split; [congruence|]. split; [exact Hst'|].
           split; [rewrite Htm', Htm; reflexivity|]. split; [exact Hpt'|].
           apply (only_insert_done r Settled s); auto.
        -- left. exists r.
           destruct (suspend_schedule r st' s s0 Hl)
             as (_ & Htm' & _ & Hab' & Ha' & Hlr' & Hcy & Hst' & Hjb).
           rewrite drain_quiescent by congruence.
           unfold cycling. repeat (split; [congruence|]).
           apply (only_insert_in_flight r st' s); auto.
      * apply Hsame, step_noop; [exact Hj|]. simpl.
        apply on_reply_unchanged. intros st' Hr'.
        destruct (in_flight st') eqn:Hfl'; [|reflexivity].
        specialize (Honly r' st' Hr' Hfl'). congruence.
    + apply Hsame, step_noop; [exact Hj|]. simpl. unfold on_timer.
      rewrite Htm. reflexivity.
  - destruct H as (Hj & Ha & (r & Hlr & Hr) & Hab & Hst & Htm & Hpt & Hn).
    assert (step s ev = s -> polling_mode (step s ev)) as Hsame.
    { intros ->. right. exists t. unfold resting.
      repeat (split; [assumption|]). split; [eauto|]. auto 10. }
    destruct ev as [[|]|c reason|r' res now|t']; try discriminate.
    + apply Hsame, step_noop; [exact Hj|]. simpl. unfold start.
      rewrite Ha. reflexivity.
    + apply Hsame, step_noop; [exact Hj|]. simpl.
      apply on_reply_unchanged. intros st' Hr'. exact (Hn r' st' Hr').
    + destruct (Nat.eqb_spec t' t) as [->|Hne].
      * left. exists (length (cycles s)).
        rewrite timer_starts_cycle;
          [|exact Hj|rewrite Htm; simpl; rewrite Nat.eqb_refl; reflexivity].
        unfold cycling. simpl.
        rewrite Htm, remove_id_single.
        repeat (split; [assumption || reflexivity|]).
        apply none_then_polling; [exact Hn|reflexivity].
      * apply Hsame, step_noop; [exact Hj|]. simpl. unfold on_timer.
        rewrite Htm. simpl.
        destruct (Nat.eqb_spec t' t); [contradiction|reflexivity].
Qed.

Lemma polling_mode_run (evs : list Event) :
  forall s : State,
    polling_mode s -> forallb no_restart evs = true ->
    existsb is_stop evs = false -> polling_mode (run s evs).
Proof.
  induction evs as [|ev evs IH]; intros s Hs Hr Hn; [exact Hs|].
  simpl in Hr, Hn. apply andb_prop in Hr as [Hr1 Hr2].
  apply orb_false_elim in Hn as [Hn1 Hn2]. simpl.
  apply IH; [apply polling_mode_step|..]; assumption.
Qed.

(** X17: polling never halts by itself.  On a new controller that is
    started and then neither stopped nor restarted, whatever the fetches
    return (batches, rejections, webhook conflicts, processor errors, failed
    recoveries) and whatever timers fire, exactly one chain is alive at every
    moment (a cycle in flight or the timer of the next one), the controller
    stays active, [_abort] stays clear and [isPolling()] stays true. *)
Theorem polling_never_halts_by_itself (b : Bot) (polling : PollingOption)
        (evs : list Event) :
  forallb no_restart evs = true -> existsb is_stop evs = false ->
  let s := run (constructor b polling) (EStart false :: evs) in
  chains s = 1 /\ _isPollingActive s = true /\ _abort s = false
  /\ isPolling s = true.
Proof.
  intros Hr Hn s. apply polling_mode_chains. unfold s. simpl run.
  apply polling_mode_run; [|exact Hr|exact Hn].
  left. exists 0. rewrite polling_step_start by reflexivity.
  unfold cycling. simpl. repeat (split; [reflexivity|]).
  apply (none_then_polling []); [|reflexivity].
  intros i st Hi. destruct i; discriminate Hi.
Qed.

Lemma polling_never_halts_by_itself_witness :
  let s := run (constructor (poisoned_bot true) (PollingFlag true))
               [EStart false;
                EReply 0 (Rejected conflict) 1000%Z;
                EReply 0 (Fulfilled []) 1001%Z;
                EReply 0 (Fulfilled [upd 5; upd 6]) 1002%Z;
                EReply 0 (Rejected timed_out) 1003%Z;
                ETimer 0;
                EStart false;
                EReply 1 (Rejected timed_out) 2000%Z] in
  chains s = 1 /\ timers s = [1] /\ _isPollingActive s = true
  /\ isPolling s = true.
Proof.
  pose proof (polling_never_halts_by_itself
                (poisoned_bot true) (PollingFlag true)
                [EReply 0 (Rejected conflict) 1000%Z;
                 EReply 0 (Fulfilled []) 1001%Z;
                 EReply 0 (Fulfilled [upd 5; upd 6]) 1002%Z;
                 EReply 0 (Rejected timed_out) 1003%Z;
                 ETimer 0;
                 EStart false;
                 EReply 1 (Rejected timed_out) 2000%Z]
                ltac:(vm_compute; reflexivity)
                ltac:(vm_compute; reflexivity)) as (H1 & H2 & _ & H3).
  vm_compute in H1, H2, H3. vm_compute. auto.
Defined.
